(** * Technologia (Dungeon Scribe front end): a shallow embedding

    The browser scripts of the repository are embedded as pure functions:

    - numbers are [Z] (the scripts floor, ceil, add, subtract and compare
      them); [x || d] on a number is [js_or x d], which takes [d] when [x]
      is the falsy number [0]; the characters a store can hold, whose
      numeric fields may be missing, have fields that are a number or NaN
      (module [Stored]); the numbers of a parsed message are kept as the
      text they print as;
    - strings are the UTF-8 bytes of the text;
    - [Math.random()] is an explicit argument, a rational [u] that is a
      double of [0, 1); its product with the number of sides is rounded to
      the nearest double as the processor does; the clock ([new Date()])
      and [uid()] are arguments too;
    - a listener that can throw returns a [result]; a listener that mutates
      the page or a module-level array takes the state and returns the new
      one;
    - the DOM is kept as the lists of children the scripts add to; styling,
      [localStorage] writes and the system toasts of the character and
      inventory pages are left out. *)

From Stdlib Require Import ZArith List String Ascii Bool Lia.
From Stdlib Require Import Permutation Sorted.
From Stdlib Require Import QArith Qround Qpower Qabs Lqa.
From Stdlib Require DecimalString.
Import ListNotations.
Local Open Scope string_scope.
Local Open Scope Z_scope.

(** ** JavaScript helpers shared by the scripts *)

Inductive JsError : Type := TypeError | SyntaxError.

Inductive result (A : Type) : Type :=
| Ok (a : A)
| Throw (e : JsError).
Arguments Ok {A} a.
Arguments Throw {A} e.

Definition bind {A B : Type} (r : result A) (k : A -> result B) : result B :=
  match r with
  | Ok a => k a
  | Throw e => Throw e
  end.

Notation "x <- r ;; k" := (bind r (fun x => k))
  (at level 61, r at next level, right associativity).

(** [x || d] for a number [x]: [0] is falsy. *)
Definition js_or (x d : Z) : Z := if x =? 0 then d else x.

(** Truthiness of a value that is [null] or a string: [null] and the empty
    string are falsy. *)
Definition truthy (v : option string) : bool :=
  match v with
  | None => false
  | Some s => negb (String.eqb s "")
  end.

(** [Math.ceil(a / b)] for integers [a] and a positive integer [b]. *)
Definition ceil_div (a b : Z) : Z := - ((- a) / b).

(** ** Number arithmetic: rounding to the nearest double

    A product of two doubles is the double nearest to the exact product,
    ties going to the even mantissa.  The doubles around [x] are spaced
    [2 ^ (e - 52)] apart, [e = max(floor(log2 |x|), -1022)]; the
    magnitudes met here are far below the overflow threshold. *)

Definition pow2 (e : Z) : Q := (2 ^ e)%Q.

(** [floor(log2 x)] for a positive [x]. *)
Definition ilog2 (x : Q) : Z :=
  let e := Z.log2 (Qnum x) - Z.log2 (Zpos (Qden x)) in
  if Qle_bool (pow2 e) x then e else e - 1.

(** The nearest integer, a tie going to the even one. *)
Definition roundEven (x : Q) : Z :=
  let f := Qfloor x in
  match (x - inject_Z f ?= 1 # 2)%Q with
  | Lt => f
  | Gt => f + 1
  | Eq => if Z.even f then f else f + 1
  end.

Definition ulp (x : Q) : Q := pow2 (Z.max (ilog2 (Qabs x)) (-1022) - 52).

(** The double nearest to [x]. *)
Definition fl (x : Q) : Q :=
  if Qeq_bool x 0 then 0%Q
  else (inject_Z (roundEven (x / ulp x)) * ulp x)%Q.

(** The largest double below 1, [1 - 2 ^ -53]. *)
Definition maxRandom : Q := 9007199254740991 # 9007199254740992.

(** What [Math.random()] can return: a double of [0, 1). *)
Definition unitDraw (u : Q) : Prop := (0 <= u)%Q /\ (u <= maxRandom)%Q.

(** ** characters.js *)

Module Characters.

Record Spell : Type := { sp_name : string; conc : bool }.

Record Character : Type := {
  id : string;
  name : string;
  cls : string;
  level : Z;
  hp : Z;
  maxHp : Z;
  ac : Z;
  speed : Z;
  hitDie : Z;
  hitDice : Z;
  con : Z;
  str : Z;
  dex : Z;
  int : Z;
  wis : Z;
  cha : Z;
  conditions : list string;
  spells : list Spell;
  concentratingOn : option string
}.

(** Field assignments [c.hp = v], [c.hitDice = v], [c.conditions = v] and
    [c.concentratingOn = v]. *)
Definition set_hp (v : Z) (c : Character) : Character :=
  {| id := id c; name := name c; cls := cls c; level := level c;
     hp := v; maxHp := maxHp c; ac := ac c; speed := speed c;
     hitDie := hitDie c; hitDice := hitDice c; con := con c;
     str := str c; dex := dex c; int := int c; wis := wis c; cha := cha c;
     conditions := conditions c; spells := spells c;
     concentratingOn := concentratingOn c |}.

Definition set_hitDice (v : Z) (c : Character) : Character :=
  {| id := id c; name := name c; cls := cls c; level := level c;
     hp := hp c; maxHp := maxHp c; ac := ac c; speed := speed c;
     hitDie := hitDie c; hitDice := v; con := con c;
     str := str c; dex := dex c; int := int c; wis := wis c; cha := cha c;
     conditions := conditions c; spells := spells c;
     concentratingOn := concentratingOn c |}.

Definition set_conditions (v : list string) (c : Character) : Character :=
  {| id := id c; name := name c; cls := cls c; level := level c;
     hp := hp c; maxHp := maxHp c; ac := ac c; speed := speed c;
     hitDie := hitDie c; hitDice := hitDice c; con := con c;
     str := str c; dex := dex c; int := int c; wis := wis c; cha := cha c;
     conditions := v; spells := spells c;
     concentratingOn := concentratingOn c |}.

Definition set_concentratingOn (v : option string) (c : Character) : Character :=
  {| id := id c; name := name c; cls := cls c; level := level c;
     hp := hp c; maxHp := maxHp c; ac := ac c; speed := speed c;
     hitDie := hitDie c; hitDice := hitDice c; con := con c;
     str := str c; dex := dex c; int := int c; wis := wis c; cha := cha c;
     conditions := conditions c; spells := spells c;
     concentratingOn := v |}.

(** [calcProf]: 1-4: +2, 5-8: +3, 9-12: +4, 13-16: +5, 17-20: +6. *)
Definition calcProf (level : Z) : Z :=
  if 17 <=? level then 6
  else if 13 <=? level then 5
  else if 9 <=? level then 4
  else if 5 <=? level then 3
  else 2.

(** [rollDie(sides) = Math.floor(Math.random() * sides) + 1]; [u] is the
    value [Math.random()] returned, and the product is the double nearest
    to [u * sides]. *)
Definition rollDie (sides : Z) (u : Q) : Z :=
  Qfloor (fl (u * inject_Z sides)) + 1.

Definition rollD20 (u : Q) : Z := rollDie 20 u.

Definition abilityMod (score : Z) : Z := (score - 10) / 2.

(** [Math.max(10, Math.floor(dmg / 2))], the [dc] of both concentration
    checks. *)
Definition concentrationDC (dmg : Z) : Z := Z.max 10 (dmg / 2).

(** Body of the [btnDamage] listener on the character found, after the
    [isNaN] guard. *)
Definition damage (dmg : Z) (u : Q) (c : Character) : Character :=
  let c1 := set_hp (Z.max 0 (hp c - dmg)) c in
  if truthy (concentratingOn c1) then
    let dc := concentrationDC dmg in
    let roll := rollD20 u + abilityMod (con c1) + calcProf (level c1) in
    let success := dc <=? roll in
    if negb success then set_concentratingOn None c1 else c1
  else c1.

(** Body of the [btnHeal] listener on the character found. *)
Definition heal (amt : Z) (c : Character) : Character :=
  set_hp (Z.min (maxHp c) (hp c + amt)) c.

(** [maxPossible] of the short rest. *)
Definition maxPossible (c : Character) : Z :=
  js_or (hitDice c) (Z.max 1 (level c / 2)).

(** The [for] loop of the short rest: [n] dice still to roll, [i] the
    index of the next [Math.random()] draw. *)
Fixpoint rollHitDice (n : nat) (i : nat) (rng : nat -> Q) (c : Character)
    (total : Z) : Z :=
  match n with
  | O => total
  | S n' =>
      let roll := rollDie (hitDie c) (rng i) in
      let add := roll + abilityMod (con c) in
      rollHitDice n' (S i) rng c (total + Z.max 0 add)
  end.

(** Body of the [btnShortRest] listener on the character found; [spent] is
    the number typed, [None] when it is not a number (an integer here, so
    [Math.floor(spent)] is [spent]). *)
Definition shortRest (spent : option Z) (rng : nat -> Q) (c : Character)
    : Character :=
  let maxPossible := maxPossible c in
  match spent with
  | None => c
  | Some spent =>
      if spent <=? 0 then c
      else
        let toSpend := Z.min maxPossible spent in
        let total := rollHitDice (Z.to_nat toSpend) 0 rng c 0 in
        let c1 := set_hp (Z.min (maxHp c) (hp c + total)) c in
        set_hitDice (js_or (hitDice c1) maxPossible - toSpend) c1
  end.

(** Body of the [btnLongRest] listener on the character found. *)
Definition longRest (c : Character) : Character :=
  let c1 := set_hp (maxHp c) c in
  let recovered := ceil_div (js_or (level c1) 1) 2 in
  let c2 := set_hitDice (Z.min (level c1) (js_or (hitDice c1) 0 + recovered)) c1 in
  let c3 := set_conditions [] c2 in
  set_concentratingOn None c3.

(** Body of the [btnConCheck] listener on the character found, after the
    guards on the number typed; a character that is not concentrating gets
    an alert and nothing else. *)
Definition conCheck (dmg : Z) (u : Q) (c : Character) : Character :=
  if negb (truthy (concentratingOn c)) then c
  else
    let dc := concentrationDC dmg in
    let roll := rollD20 u + abilityMod (con c) in
    if dc <=? roll then c else set_concentratingOn None c.

(** *** The module state and the click listeners *)

Record State : Type := {
  characters : list Character;
  selectedCharId : option string
}.

(** [characters.find(x => x.id === selectedCharId)]. *)
Definition findChar (sel : string) (cs : list Character) : option Character :=
  find (fun x => String.eqb (id x) sel) cs.

(** The character found is mutated in place: the first entry with the
    selected id is replaced. *)
Fixpoint mutateFirst (sel : string) (f : Character -> Character)
    (cs : list Character) : list Character :=
  match cs with
  | [] => []
  | x :: rest =>
      if String.eqb (id x) sel then f x :: rest
      else x :: mutateFirst sel f rest
  end.

(** A listener that reads a field of the character found: [c.hp] on
    [undefined] throws a TypeError before anything is written. *)
Definition onSelected (f : Character -> Character) (sel : string) (st : State)
    : result State :=
  match findChar sel (characters st) with
  | None => Throw TypeError
  | Some _ =>
      Ok {| characters := mutateFirst sel f (characters st);
            selectedCharId := selectedCharId st |}
  end.

Definition btnDamage_click (input : option Z) (u : Q) (st : State)
    : result State :=
  if negb (truthy (selectedCharId st)) then Ok st
  else match input, selectedCharId st with
       | Some dmg, Some sel => onSelected (damage dmg u) sel st
       | _, _ => Ok st
       end.

Definition btnHeal_click (input : option Z) (st : State) : result State :=
  if negb (truthy (selectedCharId st)) then Ok st
  else match input, selectedCharId st with
       | Some amt, Some sel => onSelected (heal amt) sel st
       | _, _ => Ok st
       end.

Definition btnShortRest_click (input : option Z) (rng : nat -> Q) (st : State)
    : result State :=
  if negb (truthy (selectedCharId st)) then Ok st
  else match selectedCharId st with
       | Some sel => onSelected (shortRest input rng) sel st
       | None => Ok st
       end.

Definition btnLongRest_click (st : State) : result State :=
  if negb (truthy (selectedCharId st)) then Ok st
  else match selectedCharId st with
       | Some sel => onSelected longRest sel st
       | None => Ok st
       end.

Definition btnConCheck_click (input : option Z) (u : Q) (st : State)
    : result State :=
  if negb (truthy (selectedCharId st)) then Ok st
  else match input, selectedCharId st with
       | Some dmg, Some sel =>
           if dmg <=? 0 then Ok st else onSelected (conCheck dmg u) sel st
       | _, _ => Ok st
       end.

(** The four actions of the sheet that change hit points. *)
Inductive Action : Type :=
| Damage (input : option Z) (u : Q)
| Heal (input : option Z)
| ShortRest (input : option Z) (rng : nat -> Q)
| LongRest.

Definition click (a : Action) (st : State) : result State :=
  match a with
  | Damage input u => btnDamage_click input u st
  | Heal input => btnHeal_click input st
  | ShortRest input rng => btnShortRest_click input rng st
  | LongRest => btnLongRest_click st
  end.

(** The state a listener leaves behind: a listener that throws has written
    nothing. *)
Definition after (r : result State) (st : State) : State :=
  match r with
  | Ok st' => st'
  | Throw _ => st
  end.

Definition hp_ok (c : Character) : Prop := 0 <= hp c <= maxHp c.

(** The number typed into the prompt of an action, when there is one. *)
Definition amount (a : Action) : option Z :=
  match a with
  | Damage input _ => input
  | Heal input => input
  | ShortRest input _ => input
  | LongRest => None
  end.

Definition nonneg_amount (a : Action) : Prop :=
  match amount a with
  | Some n => 0 <= n
  | None => True
  end.

(** Seren from the seed roster, as the spec's example has her: 20 hit
    points, concentrating on Bless. *)
Definition seren : Character :=
  {| id := "c_seren"; name := "Seren"; cls := "Cleric"; level := 3;
     hp := 20; maxHp := 22; ac := 18; speed := 30; hitDie := 8; hitDice := 3;
     con := 14; str := 10; dex := 10; int := 12; wis := 16; cha := 13;
     conditions := ["Poisoned"]; spells := [{| sp_name := "Bless"; conc := true |}];
     concentratingOn := Some "Bless" |}.

End Characters.

(** [s.trim()]: white space and line terminators removed at both ends.
    Strings are the UTF-8 bytes of the text, so a white space character is
    one byte (tab, line feed, vertical tab, form feed, carriage return,
    space), two (U+00A0) or three (U+1680, U+2000 to U+200A, U+2028,
    U+2029, U+202F, U+205F, U+3000, U+FEFF). *)
Definition isSpace (c : ascii) : bool :=
  let n := nat_of_ascii c in
  ((9 <=? n) && (n <=? 13))%nat || (n =? 32)%nat.

Definition isSpace2 (a b : ascii) : bool :=
  ((nat_of_ascii a =? 194) && (nat_of_ascii b =? 160))%nat.

Definition isSpace3 (a b c : ascii) : bool :=
  let x := nat_of_ascii a in
  let y := nat_of_ascii b in
  let z := nat_of_ascii c in
  ((x =? 225) && (y =? 154) && (z =? 128)
   || (x =? 226) && (y =? 128)
      && ((128 <=? z) && (z <=? 138) || (z =? 168) || (z =? 169) || (z =? 175))
   || (x =? 226) && (y =? 129) && (z =? 159)
   || (x =? 227) && (y =? 128) && (z =? 128)
   || (x =? 239) && (y =? 187) && (z =? 191))%nat.

(** White space removed at the front; [sp2] and [sp3] recognise the
    characters of two and three bytes. *)
Fixpoint trimFront (sp2 : ascii -> ascii -> bool)
    (sp3 : ascii -> ascii -> ascii -> bool) (s : string) : string :=
  match s with
  | EmptyString => EmptyString
  | String a s1 =>
      if isSpace a then trimFront sp2 sp3 s1
      else
        match s1 with
        | EmptyString => s
        | String b s2 =>
            if sp2 a b then trimFront sp2 sp3 s2
            else
              match s2 with
              | EmptyString => s
              | String c s3 =>
                  if sp3 a b c then trimFront sp2 sp3 s3 else s
              end
        end
  end.

Definition reverse (s : string) : string :=
  string_of_list_ascii (List.rev (list_ascii_of_string s)).

Definition trimStart (s : string) : string := trimFront isSpace2 isSpace3 s.

(** The end is the front of the reversed text, where the bytes of a
    character come in reverse. *)
Definition trimEnd (s : string) : string :=
  reverse (trimFront (fun a b => isSpace2 b a) (fun a b c => isSpace3 c b a)
             (reverse s)).

Definition trim (s : string) : string := trimEnd (trimStart s).

(** Text of ASCII characters only. *)
Definition asciiOnly (s : string) : bool :=
  forallb (fun c => (nat_of_ascii c <? 128)%nat) (list_ascii_of_string s).

(** [Array.prototype.sort(compareFn)]: a stable sort (ECMAScript 2019 and
    later); [compareFn a b > 0] puts [a] after [b].  [insertBy] puts [x],
    which came before every element of [l], in front of the first element
    it does not have to follow. *)
Section ArraySort.
Context {A : Type} (compareFn : A -> A -> Z).

Fixpoint insertBy (x : A) (l : list A) : list A :=
  match l with
  | [] => [x]
  | y :: rest =>
      if 0 <? compareFn x y then y :: insertBy x rest
      else x :: y :: rest
  end.

Definition sortBy (l : list A) : list A := fold_right insertBy [] l.
End ArraySort.

(** ** inventory.js, the quests page *)

Module Quests.

Inductive Status : Type := active | completed | failed.

(** A quest event.  [ts] is the instant [new Date(ev.ts)] denotes, in
    milliseconds; [location] is absent on the synthetic creation entry. *)
Record QuestEvent : Type := {
  ev_id : string;
  ts : Z;
  type : string;
  text : string;
  location : option string
}.

(** A quest; [events] is [None] when the stored object has no [events]
    array ([q.events || []] reads it as empty).  [status] is one of the
    three strings the page writes and filters by. *)
Record Quest : Type := {
  id : string;
  title : string;
  desc : string;
  status : Status;
  assigned : string;
  created : Z;
  events : option (list QuestEvent)
}.

(** An entry of [allEvents]: the fields of an event and the [quest] tag,
    [{ ...ev, quest: q.title }]. *)
Record TimelineEntry : Type := {
  ev : QuestEvent;
  quest : string
}.

Definition orEmpty (es : option (list QuestEvent)) : list QuestEvent :=
  match es with
  | Some l => l
  | None => []
  end.

(** The synthetic entry pushed after a quest's events. *)
Definition createdEntry (q : Quest) : TimelineEntry :=
  {| ev := {| ev_id := "c_" ++ id q; ts := created q; type := "quest-created";
              text := "Quest created"; location := None |};
     quest := title q |}.

(** What one round of [quests.forEach] pushes onto [allEvents]. *)
Definition questEntries (q : Quest) : list TimelineEntry :=
  (map (fun e => {| ev := e; quest := title q |}) (orEmpty (events q))
   ++ [createdEntry q])%list.

Definition allEvents (quests : list Quest) : list TimelineEntry :=
  flat_map questEntries quests.

(** [(a, b) => new Date(b.ts) - new Date(a.ts)]. *)
Definition byTsDesc (a b : TimelineEntry) : Z := ts (ev b) - ts (ev a).

(** [renderGlobalTimeline]: the entries rendered into the global timeline,
    first child first (none: the placeholder is shown). *)
Definition renderGlobalTimeline (quests : list Quest) : list TimelineEntry :=
  sortBy byTsDesc (allEvents quests).

(** Newest first. *)
Definition newerFirst (a b : TimelineEntry) : Prop := ts (ev b) <= ts (ev a).

(** The entries stamped [t]. *)
Definition stampedAt (t : Z) (e : TimelineEntry) : bool := ts (ev e) =? t.

(** The entries tagged with the quest title [T]. *)
Definition taggedWith (T : string) (e : TimelineEntry) : bool :=
  String.eqb (quest e) T.

(** *** The page state and its listeners *)

Record State : Type := {
  quests : list Quest;
  selectedQuestId : option string
}.

Definition findQuest (sel : string) (qs : list Quest) : option Quest :=
  find (fun x => String.eqb (id x) sel) qs.

(** The quest found is mutated in place. *)
Fixpoint mutateFirst (sel : string) (f : Quest -> Quest) (qs : list Quest)
    : list Quest :=
  match qs with
  | [] => []
  | x :: rest =>
      if String.eqb (id x) sel then f x :: rest
      else x :: mutateFirst sel f rest
  end.

Definition set_status (s : Status) (q : Quest) : Quest :=
  {| id := id q; title := title q; desc := desc q; status := s;
     assigned := assigned q; created := created q; events := events q |}.

Definition set_assigned (a : string) (q : Quest) : Quest :=
  {| id := id q; title := title q; desc := desc q; status := status q;
     assigned := a; created := created q; events := events q |}.

Definition set_events (es : option (list QuestEvent)) (q : Quest) : Quest :=
  {| id := id q; title := title q; desc := desc q; status := status q;
     assigned := assigned q; created := created q; events := es |}.

(** [selectQuest(id)]. *)
Definition selectQuest (i : string) (st : State) : State :=
  match findQuest i (quests st) with
  | None => st
  | Some _ => {| quests := quests st; selectedQuestId := Some i |}
  end.

(** [btnNew]: [title] and [description] are what the two prompts return
    ([None] when cancelled), [newId] is [uid()] and [now] is [nowTs()]. *)
Definition btnNew_click (title description : option string) (newId : string)
    (now : Z) (st : State) : result State :=
  if negb (truthy title) then Ok st
  else
    let q := {| id := newId;
                title := match title with Some t => t | None => "" end;
                desc := if truthy description
                        then match description with Some d => d | None => "" end
                        else "";
                status := active; assigned := ""; created := now;
                events := Some [] |} in
    Ok (selectQuest newId
          {| quests := q :: quests st; selectedQuestId := selectedQuestId st |}).

(** [eventForm] submit: [q.events.push(ev)] throws on a quest without an
    [events] array. *)
Definition eventForm_submit (eventText eventLocation eventType newId : string)
    (now : Z) (st : State) : result State :=
  if negb (truthy (selectedQuestId st)) then Ok st
  else match selectedQuestId st with
       | None => Ok st
       | Some sel =>
           match findQuest sel (quests st) with
           | None => Ok st
           | Some q =>
               let text := trim eventText in
               if String.eqb text "" then Ok st
               else
                 let e := {| ev_id := newId; ts := now; type := eventType;
                             text := text; location := Some eventLocation |} in
                 match events q with
                 | None => Throw TypeError
                 | Some es =>
                     Ok {| quests := mutateFirst sel (set_events (Some (es ++ [e])%list))
                                       (quests st);
                           selectedQuestId := selectedQuestId st |}
                 end
           end
       end.

(** [assignChar] change: no check that the quest was found. *)
Definition assignChar_change (value : string) (st : State) : result State :=
  if negb (truthy (selectedQuestId st)) then Ok st
  else match selectedQuestId st with
       | None => Ok st
       | Some sel =>
           match findQuest sel (quests st) with
           | None => Throw TypeError
           | Some _ =>
               Ok (selectQuest sel
                     {| quests := mutateFirst sel (set_assigned value) (quests st);
                        selectedQuestId := selectedQuestId st |})
           end
       end.

(** [btnComplete] and [btnAbandon] differ in the status they write. *)
Definition setStatus_click (s : Status) (st : State) : result State :=
  if negb (truthy (selectedQuestId st)) then Ok st
  else match selectedQuestId st with
       | None => Ok st
       | Some sel =>
           match findQuest sel (quests st) with
           | None => Ok st
           | Some _ =>
               Ok (selectQuest sel
                     {| quests := mutateFirst sel (set_status s) (quests st);
                        selectedQuestId := selectedQuestId st |})
           end
       end.

Definition btnComplete_click : State -> result State := setStatus_click completed.
Definition btnAbandon_click : State -> result State := setStatus_click failed.

(** Every listener of the page that writes [quests] or the selection. *)
Inductive Op : Type :=
| NewQuest (title description : option string) (newId : string) (now : Z)
| AddEvent (eventText eventLocation eventType newId : string) (now : Z)
| Assign (value : string)
| Complete
| Abandon
| SelectCard (i : string).

Definition step (o : Op) (st : State) : result State :=
  match o with
  | NewQuest t d i now => btnNew_click t d i now st
  | AddEvent t l ty i now => eventForm_submit t l ty i now st
  | Assign v => assignChar_change v st
  | Complete => btnComplete_click st
  | Abandon => btnAbandon_click st
  | SelectCard i => Ok (selectQuest i st)
  end.

(** A listener that throws has written nothing. *)
Definition after (r : result State) (st : State) : State :=
  match r with
  | Ok st' => st'
  | Throw _ => st
  end.

Definition run (ops : list Op) (st : State) : State :=
  fold_left (fun s o => after (step o s) s) ops st.

(** How a quest may differ after an operation: same quest, status kept or
    set to completed or failed. *)
Definition moved (q q' : Quest) : Prop :=
  id q' = id q /\
  (status q' = status q \/ status q' = completed \/ status q' = failed).

(** A quest that has left [active] has not come back. *)
Definition settled (q q' : Quest) : Prop :=
  status q <> active -> status q' <> active.

End Quests.

(** ** JSON values and the string methods the log scripts call *)

Set Warnings "-register-all".

(** A parsed JSON value.  A number is kept as [shown], the text
    [String(n)] of it ([42], [0.5], [1e+21], ...): the scripts print
    numbers into templates, test them for truthiness and compare them with
    string literals, and never compute with them.  Zero, the one falsy number
    JSON text can denote, is shown as [0]. *)
Inductive Json : Type :=
| JNull
| JBool (b : bool)
| JNum (shown : string)
| JStr (s : string)
| JArr (items : list Json)
| JObj (fields : list (string * Json)).

(** A JavaScript value read from a message: [None] is [undefined]. *)
Definition JsVal : Type := option Json.

(** [event.data] with what [JSON.parse] makes of it: a text that is not
    JSON, on which [JSON.parse] throws a SyntaxError, or the value the text
    denotes. *)
Inductive Payload : Type :=
| NotJson (data : string)
| JsonText (v : Json).

Definition JSON_parse (p : Payload) : result Json :=
  match p with
  | NotJson _ => Throw SyntaxError
  | JsonText v => Ok v
  end.

Fixpoint assoc (k : string) (fields : list (string * Json)) : JsVal :=
  match fields with
  | [] => None
  | (k', v) :: rest => if String.eqb k' k then Some v else assoc k rest
  end.

(** [m.k] for one of the names the scripts read ([heading], [content],
    [quest_name], [location], [type], [text]): a TypeError on [null],
    [undefined] on a value that is not an object. *)
Definition getProp (m : Json) (k : string) : result JsVal :=
  match m with
  | JNull => Throw TypeError
  | JObj fields => Ok (assoc k fields)
  | _ => Ok None
  end.

(** [v === s] for a string literal [s]. *)
Definition strictEq (v : JsVal) (s : string) : bool :=
  match v with
  | Some (JStr h) => String.eqb h s
  | _ => false
  end.

Definition truthyVal (v : JsVal) : bool :=
  match v with
  | None | Some JNull => false
  | Some (JBool b) => b
  | Some (JNum shown) => negb (String.eqb shown "0")
  | Some (JStr s) => negb (String.eqb s "")
  | Some (JArr _) | Some (JObj _) => true
  end.

(** [v || d]. *)
Definition orVal (v : JsVal) (d : Json) : Json :=
  match v with
  | Some j => if truthyVal v then j else d
  | None => d
  end.

(** The decimal digits of an integer (the inventory page prints
    quantities). *)
Definition string_of_Z (n : Z) : string :=
  DecimalString.NilZero.string_of_int (Z.to_int n).

(** The string a value becomes inside a template literal. *)
Fixpoint jsonToString (j : Json) : string :=
  match j with
  | JNull => "null"
  | JBool true => "true"
  | JBool false => "false"
  | JNum shown => shown
  | JStr s => s
  | JArr items =>
      (fix join (l : list Json) : string :=
         match l with
         | [] => ""
         | x :: rest =>
             let sx := match x with JNull => "" | _ => jsonToString x end in
             match rest with
             | [] => sx
             | _ :: _ => sx ++ "," ++ join rest
             end
         end) items
  | JObj _ => "[object Object]"
  end.

Definition toStr (v : JsVal) : string :=
  match v with
  | None => "undefined"
  | Some j => jsonToString j
  end.

Definition toLowerChar (c : ascii) : ascii :=
  let n := nat_of_ascii c in
  if ((65 <=? n) && (n <=? 90))%nat then ascii_of_nat (n + 32) else c.

Definition toUpperChar (c : ascii) : ascii :=
  let n := nat_of_ascii c in
  if ((97 <=? n) && (n <=? 122))%nat then ascii_of_nat (n - 32) else c.

Fixpoint mapString (f : ascii -> ascii) (s : string) : string :=
  match s with
  | EmptyString => EmptyString
  | String c rest => String (f c) (mapString f rest)
  end.

(** [s.toLowerCase()] and [s.toUpperCase()] on ASCII text: the letters A
    to Z and a to z are mapped, every other byte is kept. *)
Definition toLowerCase : string -> string := mapString toLowerChar.
Definition toUpperCase : string -> string := mapString toUpperChar.

(** [s.charAt(0)] and [s.slice(1)] on text that starts with an ASCII
    character (one byte, one UTF-16 unit). *)
Definition charAt0 (s : string) : string :=
  match s with
  | EmptyString => ""
  | String c _ => String c ""
  end.

Definition slice1 (s : string) : string :=
  match s with
  | EmptyString => ""
  | String _ rest => rest
  end.

(** [s.split(sep)] for a separator of one character. *)
Fixpoint split (sep : ascii) (s : string) : list string :=
  match s with
  | EmptyString => [""]
  | String c rest =>
      if Ascii.eqb c sep then "" :: split sep rest
      else match split sep rest with
           | [] => [String c ""]
           | p :: ps => String c p :: ps
           end
  end.

Definition doubleQuote : ascii := ascii_of_nat 34.

(** [escapeHtml] of main_live.js. *)
Fixpoint escapeHtml (s : string) : string :=
  match s with
  | EmptyString => EmptyString
  | String c rest =>
      (if Ascii.eqb c "&" then "&amp;"
       else if Ascii.eqb c "<" then "&lt;"
       else if Ascii.eqb c ">" then "&gt;"
       else if Ascii.eqb c doubleQuote then "&quot;"
       else if Ascii.eqb c "'" then "&#39;"
       else String c "") ++ escapeHtml rest
  end.

(** [escapeHtml(v)] on a value that need not be a string: [s.replace] is
    not a function then. *)
Definition escapeHtmlVal (v : Json) : result string :=
  match v with
  | JStr s => Ok (escapeHtml s)
  | _ => Throw TypeError
  end.

(** ** The dashboard page: dungeon-scribe/js/main.js, the two log scripts
    and main_live.js *)

Module Dashboard.

Inductive TxState : Type := idle | recording | paused.

(** The two log scripts, which differ in where [addLogMessage] inserts
    and in the avatar of a world update. *)
Inductive Variant : Type :=
| AppendingLog   (* insertAdjacentHTML("beforeend", ...), avatar DM *)
| PrependingLog. (* insertAdjacentHTML("afterbegin", ...), avatar crown.png *)

(** The script that owns the transcription controls: main.js, which has
    the state machine only, or one of the log scripts. *)
Inductive Script : Type :=
| MainJs
| LogScript (v : Variant).

Inductive Avatar : Type :=
| TextAvatar (className text : string)
| ImgAvatar (className src alt : string).

(** A message of the log: the elements of its markup. *)
Record LogEntry : Type := {
  className : string;
  avatar : Avatar;
  time : string;
  label : string;
  location : option string;
  html : string
}.

(** An [article.t-item] of the timeline rail. *)
Record TItem : Type := {
  itemIndex : nat;
  t_time : string;
  badge : string;
  icon : string;
  t_title : string;
  t_meta : string
}.

(** A child of the quest list. *)
Record QuestDiv : Type := {
  q_className : string;
  q_icon : string;
  q_title : string;
  q_update : string
}.

Record Toast : Type := { toast_title : string; toast_text : string }.

(** The page.  [#log] and [#quest-list], which the log scripts use without
    a check, are there; [#timeline-rail] and [#toast-root], which are
    checked before use, may be missing.  Lists are in document order. *)
Record Page : Type := {
  txState : TxState;
  log : list LogEntry;
  timelineRail : option (list TItem);
  questList : list QuestDiv;
  toastRoot : option (list Toast)
}.

Definition setState (next : TxState) (pg : Page) : Page :=
  {| txState := next; log := log pg; timelineRail := timelineRail pg;
     questList := questList pg; toastRoot := toastRoot pg |}.

Definition set_log (l : list LogEntry) (pg : Page) : Page :=
  {| txState := txState pg; log := l; timelineRail := timelineRail pg;
     questList := questList pg; toastRoot := toastRoot pg |}.

Definition set_timelineRail (r : option (list TItem)) (pg : Page) : Page :=
  {| txState := txState pg; log := log pg; timelineRail := r;
     questList := questList pg; toastRoot := toastRoot pg |}.

Definition set_questList (l : list QuestDiv) (pg : Page) : Page :=
  {| txState := txState pg; log := log pg; timelineRail := timelineRail pg;
     questList := l; toastRoot := toastRoot pg |}.

Definition set_toastRoot (r : option (list Toast)) (pg : Page) : Page :=
  {| txState := txState pg; log := log pg; timelineRail := timelineRail pg;
     questList := questList pg; toastRoot := r |}.

Definition systemEntry (now meta text : string) : LogEntry :=
  {| className := "msg"; avatar := TextAvatar "avatar" "S"; time := now;
     label := meta; location := None; html := text |}.

(** [addLog(meta, text)]: [logEl.appendChild(wrap)]. *)
Definition addLog (now meta text : string) (pg : Page) : Page :=
  set_log (log pg ++ [systemEntry now meta text])%list pg.

(** [addLogMessage(messageHtml)] of the two log scripts. *)
Definition addLogMessage (v : Variant) (e : LogEntry) (pg : Page) : Page :=
  match v with
  | AppendingLog => set_log (log pg ++ [e])%list pg
  | PrependingLog => set_log (e :: log pg) pg
  end.

(** *** The transcription controls *)

Definition btnStart_click (s : Script) (now : string) (pg : Page) : Page :=
  match txState pg with
  | idle | paused =>
      let pg1 := setState recording pg in
      match s with
      | MainJs => addLog now "System" "<em>Transcription started.</em>" pg1
      | LogScript v =>
          addLogMessage v
            (systemEntry now "System" "<em>Transcription started.</em>") pg1
      end
  | recording => pg
  end.

Definition btnPause_click (now : string) (pg : Page) : Page :=
  match txState pg with
  | recording =>
      addLog now "System" "<em>Transcription paused.</em>" (setState paused pg)
  | paused =>
      addLog now "System" "<em>Transcription resumed.</em>" (setState recording pg)
  | idle => pg
  end.

Definition btnStop_click (now : string) (pg : Page) : Page :=
  match txState pg with
  | idle => pg
  | _ => addLog now "System" "<em>Transcription stopped.</em>" (setState idle pg)
  end.

Inductive Control : Type := start | pauseResume | stop.

Definition transition (s : Script) (now : string) (a : Control) (pg : Page)
    : Page :=
  match a with
  | start => btnStart_click s now pg
  | pauseResume => btnPause_click now pg
  | stop => btnStop_click now pg
  end.

(** [after] is [before] with the one entry [e] added, at the end
    ([appendChild], [beforeend]) or at the front ([afterbegin]). *)
Inductive logged (e : LogEntry) (before after : list LogEntry) : Prop :=
| logged_last : after = (before ++ [e])%list -> logged e before after
| logged_first : after = e :: before -> logged e before after.

(** *** Quest list and timeline *)

(** [while (questList.children.length > 2) questList.removeChild(questList.lastChild)];
    [fuel] bounds the rounds. *)
Fixpoint keepTwo (fuel : nat) (l : list QuestDiv) : list QuestDiv :=
  match fuel with
  | O => l
  | S fuel' => if (2 <? List.length l)%nat then keepTwo fuel' (removelast l) else l
  end.

Definition questDiv (title update : JsVal) : QuestDiv :=
  {| q_className := "quest"; q_icon := "🔎";
     q_title := toStr title; q_update := toStr update |}.

(** [addQuest(title, update, icon = "🔎")]. *)
Definition addQuest (title update : JsVal) (pg : Page) : Page :=
  let l := questDiv title update :: questList pg in
  set_questList (keepTwo (List.length l) l) pg.

(** [addTimelineEvent(time, type, title, meta, icon)]. *)
Definition addTimelineEvent (time type : string) (title : JsVal)
    (meta icon : string) (pg : Page) : Page :=
  match timelineRail pg with
  | None => pg
  | Some items =>
      let item := {| itemIndex := List.length items; t_time := time; badge := type;
                     icon := icon; t_title := toStr title; t_meta := meta |} in
      set_timelineRail (Some (item :: items)) pg
  end.

(** [ws.onopen]. *)
Definition ws_onopen (now : string) (pg : Page) : Page :=
  addLog now "System" "<em>New game session started.</em>"
    (addTimelineEvent now "Session" (Some (JStr "New adventure begins"))
       "Game started" "⚔️" pg).

(** [formatMessage(charName, text)]. *)
Definition formatMessage (charName text : string) : string :=
  let name := toUpperCase (charAt0 charName) ++ slice1 charName in
  let content := toLowerCase (charAt0 text) ++ slice1 text in
  name ++ " " ++ content.

(** *** The message router, [ws.onmessage] of the log scripts *)

(** The [wrap] element of each branch. *)
Definition questUpdateEntry (timestamp : string) (quest_name content : JsVal)
    : LogEntry :=
  {| className := "msg right"; avatar := ImgAvatar "avatar" "quest.png" "Quest";
     time := timestamp; label := "Quest Update"; location := None;
     html := "<em>" ++ toStr quest_name ++ ": " ++ toStr content ++ "</em>" |}.

Definition worldUpdateEntry (v : Variant) (timestamp : string) (content : JsVal)
    : LogEntry :=
  {| className := "msg right";
     avatar := match v with
               | AppendingLog => TextAvatar "avatar dm" "DM"
               | PrependingLog => ImgAvatar "avatar crown" "crown.png" "Quest"
               end;
     time := timestamp; label := "World State Update"; location := None;
     html := "<em>" ++ toStr content ++ "</em>" |}.

Definition narratorEntry (timestamp : string) (loc content : JsVal) : LogEntry :=
  {| className := "msg right"; avatar := TextAvatar "avatar player" "DM";
     time := timestamp; label := "World State Update";
     location := if truthyVal loc then Some ("📍 " ++ toStr loc) else None;
     html := "<em>" ++ toStr content ++ "</em>" |}.

Definition playerEntry (timestamp meta charName content : string) : LogEntry :=
  {| className := "msg left";
     avatar := TextAvatar "avatar player" (toUpperCase (charAt0 charName));
     time := timestamp; label := meta; location := None;
     html := formatMessage charName content |}.

(** Every throw happens before the first write to the page, so a thrown
    error leaves the page as it was. *)
Definition ws_onmessage (v : Variant) (timestamp : string) (data : Payload)
    (pg : Page) : result Page :=
  msg <- JSON_parse data ;;
  heading <- getProp msg "heading" ;;
  quest_name <- getProp msg "quest_name" ;;
  content <- getProp msg "content" ;;
  loc <- getProp msg "location" ;;
  if strictEq heading "Quest Update" then
    let pg1 := addLogMessage v (questUpdateEntry timestamp quest_name content)
                 pg in
    let pg2 := addTimelineEvent timestamp "Quest" quest_name
                 "📜 Quest Updated" "" pg1 in
    Ok (addQuest quest_name content pg2)
  else if strictEq heading "World State Update" then
    let wrap := worldUpdateEntry v timestamp content in
    let pg1 := addTimelineEvent timestamp "Event" loc "📍Location Changed" ""
                 pg in
    Ok (addLogMessage v wrap pg1)
  else
    match heading with
    | Some (JStr h) =>
        if prefix "Character Action" h || prefix "Character Outcome" h then
          match nth_error (split ":" h) 1 with
          | None => Throw TypeError
          | Some part =>
              let charName := trim part in
              let meta := if prefix "Character Action" h
                          then "Action" else "Outcome" in
              if String.eqb (toLowerCase charName) "narrator" then
                Ok (addLogMessage v (narratorEntry timestamp loc content) pg)
              else
                match content with
                | Some (JStr c) =>
                    Ok (addLogMessage v (playerEntry timestamp meta charName c)
                          pg)
                | _ => Throw TypeError
                end
          end
        else Ok pg
    | _ => Throw TypeError
    end.

(** [m.k] once [m] is known not to be [null]. *)
Definition field (m : Json) (k : string) : JsVal :=
  match getProp m k with
  | Ok v => v
  | Throw _ => None
  end.

Definition isString (v : JsVal) : bool :=
  match v with
  | Some (JStr _) => true
  | _ => false
  end.

(** A message whose heading is exactly "Quest Update". *)
Definition isQuestUpdate (m : Json) : Prop :=
  getProp m "heading" = Ok (Some (JStr "Quest Update")).

(** Messages handled in arrival order, each with the time it arrived at;
    a handler that throws leaves the page as it was. *)
Definition deliver (v : Variant) (pg : Page) (m : string * Json) : Page :=
  match ws_onmessage v (fst m) (JsonText (snd m)) pg with
  | Ok pg' => pg'
  | Throw _ => pg
  end.

Definition feed (v : Variant) (msgs : list (string * Json)) (pg : Page) : Page :=
  fold_left (deliver v) msgs pg.

(** *** main_live.js: [uiWs.onmessage] *)

(** [add(html)]: [addLogMessage] when a log script defines it, a console
    warning otherwise. *)
Definition add (s : Script) (e : LogEntry) (pg : Page) : Page :=
  match s with
  | LogScript v => addLogMessage v e pg
  | MainJs => pg
  end.

Definition pushSummary (s : Script) (now text : string) (pg : Page) : Page :=
  add s {| className := "msg left"; avatar := TextAvatar "avatar" "🧾";
           time := now; label := "Summary"; location := None; html := text |}
    pg.

(** [showToast(title, text)]; the page it leaves and the error it threw,
    if any. *)
Definition showToast (title : string) (text : Json) (pg : Page)
    : Page * option JsError :=
  match toastRoot pg with
  | None => (pg, None)
  | Some toasts =>
      match escapeHtmlVal (orVal (Some text) (JStr "")) with
      | Throw e => (pg, Some e)
      | Ok t =>
          (set_toastRoot
             (Some (toasts ++ [{| toast_title := escapeHtml title;
                                  toast_text := t |}])%list) pg, None)
      end
  end.

(** The handler wraps everything in [try { ... } catch {}]: what was
    written before a throw stays, and nothing is reported. *)
Definition uiWs_onmessage (s : Script) (now : string) (data : Payload)
    (pg : Page) : Page :=
  match JSON_parse data with
  | Throw _ => pg
  | Ok m =>
      match getProp m "type", getProp m "text", getProp m "heading",
            getProp m "quest_name", getProp m "content" with
      | Ok type, Ok text, Ok heading, Ok quest_name, Ok content =>
          let pg1 := if strictEq type "summary"
                     then pushSummary s now (jsonToString (orVal text (JStr ""))) pg
                     else pg in
          if strictEq heading "Quest Update" then
            let title := if truthyVal quest_name
                         then "Quest Received: " ++ toStr quest_name
                         else "Quest Update" in
            match showToast title (orVal content (JStr "")) pg1 with
            | (pg2, Some _) => pg2
            | (pg2, None) =>
                match escapeHtmlVal (orVal quest_name (JStr "Quest")),
                      escapeHtmlVal (orVal content (JStr "")) with
                | Ok name, Ok body =>
                    set_questList
                      ({| q_className := "quest-list-item"; q_icon := "";
                          q_title := name; q_update := body |} :: questList pg2)
                      pg2
                | _, _ => pg2
                end
            end
          else pg1
      | _, _, _, _, _ => pg
      end
  end.

End Dashboard.

(** ** characters.js: the rest of the sheet *)

Module Sheet.
Import Characters.

(** [selectChar(id)]: the selection moves only to a character that is in
    the roster. *)
Definition selectChar (i : string) (st : State) : State :=
  match findChar i (characters st) with
  | None => st
  | Some _ => {| characters := characters st; selectedCharId := Some i |}
  end.

(** The click on a condition pill, once confirmed, on the character the
    panel shows: [c.conditions.filter(x => x !== cond)]. *)
Definition removeCondition (cond : string) (c : Character) : Character :=
  set_conditions (filter (fun x => negb (String.eqb x cond)) (conditions c)) c.

(** [c.concentratingOn === s.name]. *)
Definition concentratesOn (c : Character) (spell : string) : bool :=
  match concentratingOn c with
  | Some n => String.eqb n spell
  | None => false
  end.

(** The click on the Cast / Stop button of the spell [s], on the character
    the panel shows. *)
Definition spellButton_click (s : Spell) (c : Character) : Character :=
  if concentratesOn c (sp_name s) then set_concentratingOn None c
  else set_concentratingOn (Some (sp_name s)) c.

(** The values of the ability select: the six scores of a character. *)
Inductive Ability : Type := STR | DEX | CON | INT | WIS | CHA.

Definition abilityName (a : Ability) : string :=
  match a with
  | STR => "str" | DEX => "dex" | CON => "con"
  | INT => "int" | WIS => "wis" | CHA => "cha"
  end.

(** [c[ability]]. *)
Definition score (a : Ability) (c : Character) : Z :=
  match a with
  | STR => str c | DEX => dex c | CON => con c
  | INT => int c | WIS => wis c | CHA => cha c
  end.

(** What the roll button shows. *)
Record RollResult : Type := {
  label : string;
  used : Z;
  modifier : Z;
  total : Z
}.

(** Body of the [btnRoll] listener on the character found; [type] and
    [adv] are the values of the two selects, [u1] and [u2] the two draws
    of [Math.random()]. *)
Definition roll (type : string) (ability : Ability) (adv : string) (u1 u2 : Q)
    (c : Character) : RollResult :=
  let md := abilityMod (js_or (score ability c) 10) in
  let prof := calcProf (level c) in
  let r1 := rollD20 u1 in
  let r2 := rollD20 u2 in
  let used := if String.eqb adv "adv" then Z.max r1 r2
              else if String.eqb adv "dis" then Z.min r1 r2
              else r1 in
  let total0 := used + md in
  let label0 := toUpperCase (abilityName ability) ++ " check" in
  let total1 := if String.eqb type "save" then total0 + prof * 0 else total0 in
  let label1 := if String.eqb type "save"
                then toUpperCase (abilityName ability) ++ " save" else label0 in
  let total2 := if String.eqb type "attack" then total1 + prof else total1 in
  let label2 := if String.eqb type "attack" then "Attack roll" else label1 in
  {| label := label2; used := used; modifier := md; total := total2 |}.

(** The [btnRoll] listener: [c[ability]] on [undefined] throws; the roster
    is not written. *)
Definition btnRoll_click (type : string) (ability : Ability) (adv : string)
    (u1 u2 : Q) (st : State) : result (option RollResult) :=
  if negb (truthy (selectedCharId st)) then Ok None
  else match selectedCharId st with
       | None => Ok None
       | Some sel =>
           match findChar sel (characters st) with
           | None => Throw TypeError
           | Some c => Ok (Some (roll type ability adv u1 u2 c))
           end
       end.

(** [Number(prompt(...)) || d]: [None] is a text that is not a number. *)
Definition numberOr (typed : option Z) (d : Z) : Z :=
  match typed with
  | Some v => js_or v d
  | None => d
  end.

(** [prompt(...) || d]: [None] is a cancelled prompt. *)
Definition stringOr (typed : option string) (d : string) : string :=
  match typed with
  | Some s => if String.eqb s "" then d else s
  | None => d
  end.

(** The character [btnNewChar] builds. *)
Definition newChar (uid name : string) (cls : option string)
    (lvl mx cn : option Z) : Character :=
  let lv := numberOr lvl 1 in
  let maxHp := numberOr mx 8 in
  {| id := uid; name := name; cls := stringOr cls "Adventurer"; level := lv;
     hp := maxHp; maxHp := maxHp; ac := 10; speed := 30; hitDie := 8;
     hitDice := Z.max 1 (lv / 2); con := numberOr cn 12;
     str := 10; dex := 10; int := 10; wis := 10; cha := 10;
     conditions := []; spells := []; concentratingOn := None |}.

(** [btnNewChar]: the answers to the five prompts and the [uid()] drawn. *)
Definition btnNewChar_click (name cls : option string) (lvl mx cn : option Z)
    (uid : string) (st : State) : State :=
  match name with
  | None => st
  | Some n =>
      if String.eqb n "" then st
      else
        let c := newChar uid n cls lvl mx cn in
        selectChar (id c)
          {| characters := (characters st ++ [c])%list;
             selectedCharId := selectedCharId st |}
  end.

(** The writes of [btnEditChar] on the character found. *)
Definition editChar (newName : string) (newCls : option string)
    (lvl mx : option Z) (c : Character) : Character :=
  let maxHp' := numberOr mx (maxHp c) in
  {| id := id c; name := newName; cls := stringOr newCls (cls c);
     level := numberOr lvl (level c);
     hp := Z.min (hp c) maxHp'; maxHp := maxHp'; ac := ac c; speed := speed c;
     hitDie := hitDie c; hitDice := hitDice c; con := con c;
     str := str c; dex := dex c; int := int c; wis := wis c; cha := cha c;
     conditions := conditions c; spells := spells c;
     concentratingOn := concentratingOn c |}.

(** [btnEditChar]: the first prompt reads [c.name], which throws when no
    character was found; an empty or cancelled name ends the edit. *)
Definition btnEditChar_click (newName newCls : option string)
    (lvl mx : option Z) (st : State) : result State :=
  if negb (truthy (selectedCharId st)) then Ok st
  else match selectedCharId st with
       | None => Ok st
       | Some sel =>
           match findChar sel (characters st), newName with
           | None, _ => Throw TypeError
           | Some _, None => Ok st
           | Some _, Some n =>
               if String.eqb n "" then Ok st
               else onSelected (editChar n newCls lvl mx) sel st
           end
       end.

(** [btnDeleteChar]: [confirmed] is the answer to the confirm dialog. *)
Definition btnDeleteChar_click (confirmed : bool) (st : State) : State :=
  if negb (truthy (selectedCharId st)) then st
  else if negb confirmed then st
  else match selectedCharId st with
       | None => st
       | Some sel =>
           {| characters :=
                filter (fun x => negb (String.eqb (id x) sel)) (characters st);
              selectedCharId := None |}
       end.

Definition set_id (v : string) (c : Character) : Character :=
  {| id := v; name := name c; cls := cls c; level := level c;
     hp := hp c; maxHp := maxHp c; ac := ac c; speed := speed c;
     hitDie := hitDie c; hitDice := hitDice c; con := con c;
     str := str c; dex := dex c; int := int c; wis := wis c; cha := cha c;
     conditions := conditions c; spells := spells c;
     concentratingOn := concentratingOn c |}.

(** [for (let c of data) c.id = c.id || uid()]: [uids n] is the [n]-th
    identifier [uid()] returns. *)
Fixpoint assignIds (uids : nat -> string) (n : nat) (data : list Character)
    : list Character :=
  match data with
  | [] => []
  | c :: rest =>
      if String.eqb (id c) "" then set_id (uids n) c :: assignIds uids (S n) rest
      else c :: assignIds uids n rest
  end.

(** The import, once the file is read: [data] is the array of characters
    in the file, each with every field as [btnExportChars] writes them;
    [None] when the text is not JSON or not an array (an alert, and nothing
    is written). *)
Definition importChars (data : option (list Character)) (uids : nat -> string)
    (st : State) : State :=
  match data with
  | None => st
  | Some d =>
      {| characters := (assignIds uids 0 d ++ characters st)%list;
         selectedCharId := selectedCharId st |}
  end.

(** The listeners of the page that read or write the roster. *)
Inductive Event : Type :=
| Select (i : string)
| Sheet (a : Action)
| ConCheck (input : option Z) (u : Q)
| Roll (type : string) (ability : Ability) (adv : string) (u1 u2 : Q)
| NewChar (name cls : option string) (lvl mx cn : option Z) (uid : string)
| EditChar (newName newCls : option string) (lvl mx : option Z)
| DeleteChar (confirmed : bool)
| ImportChars (data : option (list Character)) (uids : nat -> string).

Definition handle (e : Event) (st : State) : result State :=
  match e with
  | Select i => Ok (selectChar i st)
  | Sheet a => click a st
  | ConCheck input u => btnConCheck_click input u st
  | Roll type ability adv u1 u2 =>
      _ <- btnRoll_click type ability adv u1 u2 st ;; Ok st
  | NewChar name cls lvl mx cn uid =>
      Ok (btnNewChar_click name cls lvl mx cn uid st)
  | EditChar newName newCls lvl mx => btnEditChar_click newName newCls lvl mx st
  | DeleteChar confirmed => Ok (btnDeleteChar_click confirmed st)
  | ImportChars data uids => Ok (importChars data uids st)
  end.

(** A session: the listeners run one after another; the first throw ends
    the fold with the error. *)
Fixpoint session (events : list Event) (st : State) : result State :=
  match events with
  | [] => Ok st
  | e :: rest => st' <- handle e st ;; session rest st'
  end.

(** The selection, when there is one, names a character of the roster. *)
Definition selection_ok (st : State) : Prop :=
  forall sel, selectedCharId st = Some sel -> sel <> "" ->
              exists c, findChar sel (characters st) = Some c.

(** Hit dice are a count between nothing and the level. *)
Definition hitDice_ok (c : Character) : Prop := 0 <= hitDice c <= level c.

End Sheet.

(** ** characters.js on the characters the store can hold

    [localStorage] is shared by the pages: the inventory page writes its
    demo characters, [{ id, name, cls, level }], under the key the
    character sheet loads its roster from, and an imported file is taken as
    it is.  A numeric field of a character may therefore be missing.  A
    missing field reads [undefined], which arithmetic, [Math.min],
    [Math.max] and the comparisons turn into NaN and which [||] treats as
    it treats NaN; [NaN] stands for both.  The listeners are embedded again
    on such characters; on a character that has every field they are the
    functions of [Characters] ([ofSheet]). *)

Module Stored.

Inductive Num : Type :=
| NaN
| Int (z : Z).

Definition lift2 (f : Z -> Z -> Z) (a b : Num) : Num :=
  match a, b with
  | Int x, Int y => Int (f x y)
  | _, _ => NaN
  end.

(** [a + b], [a - b], [Math.max(a, b)] and [Math.min(a, b)]: NaN when an
    argument is. *)
Definition nadd : Num -> Num -> Num := lift2 Z.add.
Definition nsub : Num -> Num -> Num := lift2 Z.sub.
Definition nmax : Num -> Num -> Num := lift2 Z.max.
Definition nmin : Num -> Num -> Num := lift2 Z.min.

(** [x || d]: NaN, [undefined] and [0] are falsy. *)
Definition nor (x d : Num) : Num :=
  match x with
  | NaN => d
  | Int z => if z =? 0 then d else x
  end.

(** [a >= b]: false when an argument is NaN. *)
Definition ngeq (a b : Num) : bool :=
  match a, b with
  | Int x, Int y => y <=? x
  | _, _ => false
  end.

(** [Math.floor(x / 2)] and [Math.ceil(x / 2)]. *)
Definition floorHalf (x : Num) : Num :=
  match x with
  | NaN => NaN
  | Int z => Int (z / 2)
  end.

Definition ceilHalf (x : Num) : Num :=
  match x with
  | NaN => NaN
  | Int z => Int (ceil_div z 2)
  end.

(** The fields the listeners below read or write; [id], [name] and [cls]
    are there (the roster cannot be drawn without [name]). *)
Record Character : Type := {
  id : string;
  name : string;
  cls : string;
  level : Num;
  hp : Num;
  maxHp : Num;
  hitDie : Num;
  hitDice : Num;
  con : Num;
  conditions : list string;
  concentratingOn : option string
}.

Definition set_hp (v : Num) (c : Character) : Character :=
  {| id := id c; name := name c; cls := cls c; level := level c;
     hp := v; maxHp := maxHp c; hitDie := hitDie c; hitDice := hitDice c;
     con := con c; conditions := conditions c;
     concentratingOn := concentratingOn c |}.

Definition set_hitDice (v : Num) (c : Character) : Character :=
  {| id := id c; name := name c; cls := cls c; level := level c;
     hp := hp c; maxHp := maxHp c; hitDie := hitDie c; hitDice := v;
     con := con c; conditions := conditions c;
     concentratingOn := concentratingOn c |}.

Definition set_conditions (v : list string) (c : Character) : Character :=
  {| id := id c; name := name c; cls := cls c; level := level c;
     hp := hp c; maxHp := maxHp c; hitDie := hitDie c; hitDice := hitDice c;
     con := con c; conditions := v;
     concentratingOn := concentratingOn c |}.

Definition set_concentratingOn (v : option string) (c : Character) : Character :=
  {| id := id c; name := name c; cls := cls c; level := level c;
     hp := hp c; maxHp := maxHp c; hitDie := hitDie c; hitDice := hitDice c;
     con := con c; conditions := conditions c;
     concentratingOn := v |}.

(** [calcProf(level)]: every [level >= n] is false on NaN. *)
Definition calcProf (level : Num) : Z :=
  match level with
  | NaN => 2
  | Int l => Characters.calcProf l
  end.

(** [rollDie(sides)]: [Math.random() * undefined] is NaN. *)
Definition rollDie (sides : Num) (u : Q) : Num :=
  match sides with
  | NaN => NaN
  | Int s => Int (Characters.rollDie s u)
  end.

Definition rollD20 (u : Q) : Z := Characters.rollDie 20 u.

Definition abilityMod (score : Num) : Num :=
  match score with
  | NaN => NaN
  | Int s => Int ((s - 10) / 2)
  end.

Definition concentrationDC (dmg : Z) : Z := Z.max 10 (dmg / 2).

(** Body of the [btnDamage] listener on the character found, after the
    [isNaN] guard. *)
Definition damage (dmg : Z) (u : Q) (c : Character) : Character :=
  let c1 := set_hp (nmax (Int 0) (nsub (hp c) (Int dmg))) c in
  if truthy (concentratingOn c1) then
    let dc := Int (concentrationDC dmg) in
    let roll := nadd (nadd (Int (rollD20 u)) (abilityMod (con c1)))
                     (Int (calcProf (level c1))) in
    let success := ngeq roll dc in
    if negb success then set_concentratingOn None c1 else c1
  else c1.

(** Body of the [btnHeal] listener on the character found. *)
Definition heal (amt : Z) (c : Character) : Character :=
  set_hp (nmin (maxHp c) (nadd (hp c) (Int amt))) c.

Definition maxPossible (c : Character) : Num :=
  nor (hitDice c) (nmax (Int 1) (floorHalf (level c))).

(** The [for] loop of the short rest: [n] dice still to roll, [i] the
    index of the next [Math.random()] draw. *)
Fixpoint rollHitDice (n : nat) (i : nat) (rng : nat -> Q) (c : Character)
    (total : Num) : Num :=
  match n with
  | O => total
  | S n' =>
      let roll := rollDie (hitDie c) (rng i) in
      let add := nadd roll (abilityMod (con c)) in
      rollHitDice n' (S i) rng c (nadd total (nmax (Int 0) add))
  end.

(** The rounds of [for (let i = 0; i < toSpend; i++)]: none when
    [toSpend] is NaN. *)
Definition rounds (toSpend : Num) : nat :=
  match toSpend with
  | NaN => O
  | Int t => Z.to_nat t
  end.

(** Body of the [btnShortRest] listener on the character found; [spent] is
    the number typed, [None] when it is not a number. *)
Definition shortRest (spent : option Z) (rng : nat -> Q) (c : Character)
    : Character :=
  let maxPossible := maxPossible c in
  match spent with
  | None => c
  | Some spent =>
      if spent <=? 0 then c
      else
        let toSpend := nmin maxPossible (Int spent) in
        let total := rollHitDice (rounds toSpend) 0 rng c (Int 0) in
        let c1 := set_hp (nmin (maxHp c) (nadd (hp c) total)) c in
        set_hitDice (nsub (nor (hitDice c1) maxPossible) toSpend) c1
  end.

(** Body of the [btnLongRest] listener on the character found. *)
Definition longRest (c : Character) : Character :=
  let c1 := set_hp (maxHp c) c in
  let recovered := ceilHalf (nor (level c1) (Int 1)) in
  let c2 := set_hitDice
              (nmin (level c1) (nadd (nor (hitDice c1) (Int 0)) recovered)) c1 in
  let c3 := set_conditions [] c2 in
  set_concentratingOn None c3.

(** Body of the [btnConCheck] listener on the character found, after the
    guards on the number typed. *)
Definition conCheck (dmg : Z) (u : Q) (c : Character) : Character :=
  if negb (truthy (concentratingOn c)) then c
  else
    let dc := Int (concentrationDC dmg) in
    let roll := nadd (Int (rollD20 u)) (abilityMod (con c)) in
    if ngeq roll dc then c else set_concentratingOn None c.

(** [Number(prompt(...)) || d]. *)
Definition numberOr (typed : option Z) (d : Num) : Num :=
  match typed with
  | Some v => nor (Int v) d
  | None => d
  end.

(** The writes of [btnEditChar] on the character found. *)
Definition editChar (newName : string) (newCls : option string)
    (lvl mx : option Z) (c : Character) : Character :=
  let maxHp' := numberOr mx (maxHp c) in
  {| id := id c; name := newName; cls := Sheet.stringOr newCls (cls c);
     level := numberOr lvl (level c);
     hp := nmin (hp c) maxHp'; maxHp := maxHp';
     hitDie := hitDie c; hitDice := hitDice c; con := con c;
     conditions := conditions c; concentratingOn := concentratingOn c |}.

(** A character of the sheet's own making has every field. *)
Definition ofSheet (c : Characters.Character) : Character :=
  {| id := Characters.id c; name := Characters.name c;
     cls := Characters.cls c; level := Int (Characters.level c);
     hp := Int (Characters.hp c); maxHp := Int (Characters.maxHp c);
     hitDie := Int (Characters.hitDie c);
     hitDice := Int (Characters.hitDice c); con := Int (Characters.con c);
     conditions := Characters.conditions c;
     concentratingOn := Characters.concentratingOn c |}.

(** Hit points are a number between 0 and [maxHp]. *)
Definition hp_ok (c : Character) : Prop :=
  exists h m, hp c = Int h /\ maxHp c = Int m /\ 0 <= h <= m.

End Stored.

(** ** inventory.js, the quests page: lists and selection *)

Module QuestPage.
Import Quests.

(** [filterMode]: ['all'] or one of the three statuses. *)
Inductive FilterMode : Type := all | only (s : Status).

Definition statusIs (s : Status) (q : Quest) : bool :=
  match s, status q with
  | active, active | completed, completed | failed, failed => true
  | _, _ => false
  end.

(** [renderQuestList]: the cards shown, in order (none: the placeholder). *)
Definition renderQuestList (filterMode : FilterMode) (quests : list Quest)
    : list Quest :=
  filter (fun q => match filterMode with
                   | all => true
                   | only s => statusIs s q
                   end) quests.

(** [renderQuestEvents]: the events of a quest, last added first. *)
Definition renderQuestEvents (q : Quest) : list QuestEvent :=
  rev (orEmpty (events q)).

(** The selection, when there is one, names a quest of the list. *)
Definition selection_ok (st : State) : Prop :=
  forall sel, selectedQuestId st = Some sel -> sel <> "" ->
              exists q, findQuest sel (quests st) = Some q.

(** The events logged on all quests together. *)
Definition eventCount (qs : list Quest) : nat :=
  list_sum (map (fun q => List.length (orEmpty (events q))) qs).

End QuestPage.

(** ** The dashboard page: search, timeline numbering, state changes *)

Module LogTools.
Import Dashboard.

Definition TxState_eqb (a b : TxState) : bool :=
  match a, b with
  | idle, idle | recording, recording | paused, paused => true
  | _, _ => false
  end.

(** The [--item-index] of every item of a rail is the number of items
    that were there when it came. *)
Fixpoint numbered (items : list TItem) : Prop :=
  match items with
  | [] => True
  | t :: rest => itemIndex t = List.length rest /\ numbered rest
  end.

(** A message whose heading is exactly "World State Update". *)
Definition isWorldUpdate (m : Json) : Prop :=
  getProp m "heading" = Ok (Some (JStr "World State Update")).

(** The entry [filterLogs] renders for the document [doc] of the
    collection [col]; its meta line is [From col], without a time. *)
Definition searchEntry (col doc : string) : LogEntry :=
  {| className := "msg";
     avatar := TextAvatar "avatar" (toUpperCase (charAt0 col));
     time := ""; label := "From " ++ col; location := None; html := doc |}.

(** [filterLogs(type, query)] of the prepending log script, once the
    request has settled: [response] is the mapping the server returned, in
    the order of [Object.entries], [None] when the request or the decoding
    failed (the error goes to the console).  An empty query sends nothing. *)
Definition filterLogs (query : string)
    (response : option (list (string * list string))) (pg : Page) : Page :=
  if String.eqb query "" then pg
  else match response with
       | None => pg
       | Some data =>
           set_log
             (flat_map (fun cd => map (searchEntry (fst cd)) (snd cd)) data) pg
       end.

(** The characters that open or close markup or an attribute value. *)
Definition unsafeChar (c : ascii) : bool :=
  Ascii.eqb c "<" || Ascii.eqb c ">" || Ascii.eqb c doubleQuote
  || Ascii.eqb c "'".

(** The child [uiWs.onmessage] prepends to the quest list. *)
Definition liveQuestItem (quest_name content : string) : QuestDiv :=
  {| q_className := "quest-list-item"; q_icon := "";
     q_title := escapeHtml (if String.eqb quest_name "" then "Quest"
                            else quest_name);
     q_update := escapeHtml content |}.

End LogTools.

(** ** inventory.js, the inventory page *)

Module Inventory.

(** An item.  [qty] is a whole number, as the samples and the add form's
    default have it; Edit can store any number. *)
Record Item : Type := {
  id : string;
  name : string;
  type : string;
  desc : string;
  weight : Q;
  qty : Z;
  equipped : bool
}.

(** A child of [#items]: the card of an item, or a system message
    ([div.msg.right]). *)
Inductive Node : Type :=
| Card (it : Item)
| SystemMsg (text : string).

Definition isSystem (n : Node) : bool :=
  match n with
  | SystemMsg _ => true
  | Card _ => false
  end.

(** The page: the module-level variables, the value of the search box and
    the children of [#items]. *)
Record State : Type := {
  inventory : list Item;
  selectedId : option string;
  activeFilter : string;
  searchValue : string;
  itemsEl : list Node
}.

Definition set_qty (v : Z) (it : Item) : Item :=
  {| id := id it; name := name it; type := type it; desc := desc it;
     weight := weight it; qty := v; equipped := equipped it |}.

Definition set_equipped (v : bool) (it : Item) : Item :=
  {| id := id it; name := name it; type := type it; desc := desc it;
     weight := weight it; qty := qty it; equipped := v |}.

Definition set_id (v : string) (it : Item) : Item :=
  {| id := v; name := name it; type := type it; desc := desc it;
     weight := weight it; qty := qty it; equipped := equipped it |}.

(** [renderStats]: the two numbers shown; an item whose [qty] is 0 counts
    as one ([i.qty || 1]), a missing weight as 0. *)
Definition totalItems (inv : list Item) : Z :=
  fold_left (fun s i => s + js_or (qty i) 1) inv 0.

Definition totalWeight (inv : list Item) : Q :=
  fold_left (fun s i => (s + weight i * inject_Z (js_or (qty i) 1))%Q) inv 0%Q.

(** [hay.includes(needle)]. *)
Fixpoint includes (needle hay : string) : bool :=
  prefix needle hay
  || match hay with
     | EmptyString => false
     | String _ rest => includes needle rest
     end.

(** The predicate of [renderList(filterText)]. *)
Definition shown (activeFilter filterText : string) (it : Item) : bool :=
  if negb (String.eqb activeFilter "all")
     && negb (String.eqb (toLowerCase (type it)) activeFilter)
  then false
  else if String.eqb filterText "" then true
  else includes (toLowerCase filterText)
         (toLowerCase (name it ++ " " ++ desc it ++ " " ++ type it)).

(** [renderList(filterText)]: [#items] is emptied and gets one card for
    each item that passes. *)
Definition renderList (filterText : string) (st : State) : State :=
  {| inventory := inventory st; selectedId := selectedId st;
     activeFilter := activeFilter st; searchValue := searchValue st;
     itemsEl := map Card (filter (shown (activeFilter st) filterText)
                            (inventory st)) |}.

(** The last system message of [#items] removed. *)
Fixpoint dropFirstSystem (l : list Node) : list Node :=
  match l with
  | [] => []
  | SystemMsg _ :: rest => rest
  | n :: rest => n :: dropFirstSystem rest
  end.

Definition dropLastSystem (l : list Node) : list Node :=
  rev (dropFirstSystem (rev l)).

Definition countSystem (l : list Node) : nat :=
  List.length (filter isSystem l).

(** [addLogSystem(text)]: the message goes in front; past six system
    messages the last one is removed. *)
Definition addLogSystem (text : string) (st : State) : State :=
  let els := SystemMsg text :: itemsEl st in
  {| inventory := inventory st; selectedId := selectedId st;
     activeFilter := activeFilter st; searchValue := searchValue st;
     itemsEl := if (6 <? countSystem els)%nat then dropLastSystem els
                else els |}.

Definition findItem (sel : string) (inv : list Item) : option Item :=
  find (fun x => String.eqb (id x) sel) inv.

Fixpoint mutateFirst (sel : string) (f : Item -> Item) (inv : list Item)
    : list Item :=
  match inv with
  | [] => []
  | x :: rest =>
      if String.eqb (id x) sel then f x :: rest
      else x :: mutateFirst sel f rest
  end.

Definition set_inventory (inv : list Item) (st : State) : State :=
  {| inventory := inv; selectedId := selectedId st;
     activeFilter := activeFilter st; searchValue := searchValue st;
     itemsEl := itemsEl st |}.

Definition set_selectedId (sel : option string) (st : State) : State :=
  {| inventory := inventory st; selectedId := sel;
     activeFilter := activeFilter st; searchValue := searchValue st;
     itemsEl := itemsEl st |}.

(** [selectItem(id)]. *)
Definition selectItem (i : string) (st : State) : State :=
  match findItem i (inventory st) with
  | None => st
  | Some _ => set_selectedId (Some i) st
  end.

(** [btnUse]. *)
Definition btnUse_click (st : State) : State :=
  match selectedId st with
  | None => st
  | Some sel =>
      if String.eqb sel "" then st
      else match findItem sel (inventory st) with
           | None => st
           | Some it =>
               if 0 <? qty it then
                 let q' := Z.max 0 (qty it - 1) in
                 let st1 := set_inventory
                              (mutateFirst sel (set_qty q') (inventory st)) st in
                 let st2 := addLogSystem
                              (name it ++ " used (qty now " ++ string_of_Z q'
                               ++ ")") st1 in
                 selectItem sel (renderList (searchValue st2) st2)
               else st
           end
  end.

(** [btnToggleEquip]. *)
Definition btnToggleEquip_click (st : State) : State :=
  match selectedId st with
  | None => st
  | Some sel =>
      if String.eqb sel "" then st
      else match findItem sel (inventory st) with
           | None => st
           | Some it =>
               let e' := negb (equipped it) in
               let st1 := set_inventory
                            (mutateFirst sel (set_equipped e') (inventory st))
                            st in
               let st2 := addLogSystem
                            (name it ++ " "
                             ++ (if e' then "equipped" else "unequipped")) st1 in
               selectItem sel (renderList (searchValue st2) st2)
           end
  end.

(** [btnDelete]: every item with the selected id goes. *)
Definition btnDelete_click (st : State) : State :=
  match selectedId st with
  | None => st
  | Some sel =>
      if String.eqb sel "" then st
      else
        let st1 := set_inventory
                     (filter (fun i => negb (String.eqb (id i) sel))
                        (inventory st)) st in
        let st2 := set_selectedId None (addLogSystem "Item deleted." st1) in
        renderList (searchValue st2) st2
  end.

(** The four sample items; [uids] gives the [uid()] of each. *)
Definition sampleItems (uids : nat -> string) : list Item :=
  [ {| id := uids 0%nat; name := "Shortsword"; type := "weapon";
       desc := "Versatile + simple"; weight := 2; qty := 1; equipped := true |};
    {| id := uids 1%nat; name := "Leather Armor"; type := "armor";
       desc := "Light armor"; weight := 10; qty := 1; equipped := true |};
    {| id := uids 2%nat; name := "Healing Potion"; type := "consumable";
       desc := "Heals 2d4+2 HP"; weight := 1 # 2; qty := 3; equipped := false |};
    {| id := uids 3%nat; name := "Cloak of Elvenkind"; type := "magic";
       desc := "Advantage on stealth checks"; weight := 1; qty := 1;
       equipped := false |} ].

(** [btnSeed], once confirmed: each sample is unshifted with a fresh id,
    so the last sample ends up first; the list is rendered without the
    search text.  The samples are copied as declared (on a first visit the
    inventory starts as the sample objects themselves, and what Use wrote
    to them would be copied). *)
Definition btnSeed_click (confirmed : bool) (loadIds newIds : nat -> string)
    (st : State) : State :=
  if negb confirmed then st
  else
    let fresh := map (fun ks => set_id (newIds (fst ks)) (snd ks))
                     (combine (seq 0 4) (sampleItems loadIds)) in
    renderList "" (set_inventory (rev fresh ++ inventory st)%list st).

(** [btnClear], once confirmed. *)
Definition btnClear_click (confirmed : bool) (st : State) : State :=
  if negb confirmed then st else renderList "" (set_inventory [] st).

(** A filter button, and typing in the search box. *)
Definition filter_click (f : string) (st : State) : State :=
  renderList (searchValue st)
    {| inventory := inventory st; selectedId := selectedId st;
       activeFilter := f; searchValue := searchValue st;
       itemsEl := itemsEl st |}.

Definition search_input (value : string) (st : State) : State :=
  renderList value
    {| inventory := inventory st; selectedId := selectedId st;
       activeFilter := activeFilter st; searchValue := value;
       itemsEl := itemsEl st |}.

(** The listeners of the page that need no typed text beyond the search. *)
Inductive Event : Type :=
| SelectCard (i : string)
| Use
| ToggleEquip
| Delete
| Seed (confirmed : bool) (loadIds newIds : nat -> string)
| Clear (confirmed : bool)
| Filter (f : string)
| Search (value : string).

Definition handle (e : Event) (st : State) : State :=
  match e with
  | SelectCard i => selectItem i st
  | Use => btnUse_click st
  | ToggleEquip => btnToggleEquip_click st
  | Delete => btnDelete_click st
  | Seed c l n => btnSeed_click c l n st
  | Clear c => btnClear_click c st
  | Filter f => filter_click f st
  | Search v => search_input v st
  end.

Definition qty_ok (it : Item) : Prop := 0 <= qty it.

End Inventory.

(** ** main_live.js: the fallback audio path *)

Module Audio.

(** [Math.min] and [Math.max] on samples.  A finite float32 sample is a
    rational, and its products by 0x8000 and 0x7fff are exact in double
    precision, so the arithmetic below is the script's on samples that are
    numbers. *)
Definition Math_min (a b : Q) : Q := if Qle_bool a b then a else b.
Definition Math_max (a b : Q) : Q := if Qle_bool a b then b else a.

(** Rounding toward zero. *)
Definition truncate (x : Q) : Z :=
  if Qle_bool 0 x then Qfloor x else Qceiling x.

(** The store into an [Int16Array]: truncation, then reduction modulo
    2^16 into -32768 .. 32767. *)
Definition toInt16 (x : Q) : Z :=
  let k := truncate x mod 65536 in
  if 32768 <=? k then k - 65536 else k.

(** One round of the loop of [f32ToI16]. *)
Definition scaled (sample : Q) : Q :=
  let x := Math_max (-1) (Math_min 1 sample) in
  if Qle_bool 0 x then (x * 32767)%Q else (x * 32768)%Q.

Definition sampleToI16 (sample : Q) : Z := toInt16 (scaled sample).

Definition f32ToI16 (f32 : list Q) : list Z := map sampleToI16 f32.

(** [CHUNK], about 100 ms at 16 kHz. *)
Definition CHUNK : nat := 1600.

(** The [for (let i = 0; i < i16.length; i += CHUNK)] loop of
    [onaudioprocess]: the frames cut, [i16.subarray(i, Math.min(i + CHUNK,
    i16.length))] for each [i]; [fuel] bounds the rounds. *)
Fixpoint framesFrom (fuel i : nat) (i16 : list Z) : list (list Z) :=
  match fuel with
  | O => []
  | S fuel' =>
      if (i <? List.length i16)%nat then
        firstn (Nat.min (i + CHUNK) (List.length i16) - i) (skipn i i16)
        :: framesFrom fuel' (i + CHUNK) i16
      else []
  end.

Definition frames (i16 : list Z) : list (list Z) :=
  framesFrom (List.length i16) 0 i16.

(** What goes out on the audio socket for one buffer: every frame when
    the socket is open, nothing when it is not. *)
Definition sent (socketOpen : bool) (i16 : list Z) : list (list Z) :=
  if socketOpen then frames i16 else [].

End Audio.

(** ** Sample data: the seed roster, a quest log and a dashboard page *)

Module Samples.

Import Characters.

(** Thorne from the seed roster after a fight, every hit die spent. *)
Definition thorneSpent : Character :=
  {| id := "c_thorne"; name := "Thorne"; cls := "Rogue"; level := 2;
     hp := 5; maxHp := 14; ac := 14; speed := 30; hitDie := 8; hitDice := 0;
     con := 12; str := 10; dex := 16; int := 12; wis := 11; cha := 10;
     conditions := []; spells := []; concentratingOn := None |}.

(** A level 4 character with one hit die left. *)
Definition veteran : Character :=
  {| id := "c_vet"; name := "Kyra"; cls := "Warlock"; level := 4;
     hp := 7; maxHp := 30; ac := 12; speed := 30; hitDie := 8; hitDice := 1;
     con := 14; str := 10; dex := 12; int := 11; wis := 13; cha := 16;
     conditions := ["Prone"; "Poisoned"];
     spells := [{| sp_name := "Hex"; conc := true |}];
     concentratingOn := Some "Hex" |}.

Definition roster : State :=
  {| characters := [seren; thorneSpent; veteran];
     selectedCharId := Some "c_vet" |}.

(** [Math.random()] returning one half every time. *)
Definition half : nat -> Q := fun _ => (1 # 2)%Q.

(** Two quests: the vault quest, already completed, with an event logged
    at the instant the quest was created and a later one; the lighthouse
    quest, stored without an [events] array. *)
Definition trapdoor : Quests.QuestEvent :=
  {| Quests.ev_id := "q_e1"; Quests.ts := 100; Quests.type := "milestone";
     Quests.text := "Party discovered a hidden trapdoor under the shrine";
     Quests.location := Some "Greywatch" |}.

Definition sealBroken : Quests.QuestEvent :=
  {| Quests.ev_id := "q_e2"; Quests.ts := 250; Quests.type := "action";
     Quests.text := "The seal is broken"; Quests.location := Some "" |}.

Definition vault : Quests.Quest :=
  {| Quests.id := "q_vault"; Quests.title := "The Whispering Vault";
     Quests.desc := "Investigate the sealed vault beneath Greywatch";
     Quests.status := Quests.completed; Quests.assigned := "Kyra";
     Quests.created := 100; Quests.events := Some [trapdoor; sealBroken] |}.

Definition lighthouse : Quests.Quest :=
  {| Quests.id := "q_light"; Quests.title := "Old Lighthouse Mystery";
     Quests.desc := "Strange lights at the lighthouse";
     Quests.status := Quests.active; Quests.assigned := "Thorne";
     Quests.created := 200; Quests.events := None |}.

Definition questLog : Quests.State :=
  {| Quests.quests := [vault; lighthouse];
     Quests.selectedQuestId := Some "q_vault" |}.

(** The dashboard before the session starts, and with the transcription
    paused. *)
Definition freshPage : Dashboard.Page :=
  {| Dashboard.txState := Dashboard.idle; Dashboard.log := [];
     Dashboard.timelineRail := Some []; Dashboard.questList := [];
     Dashboard.toastRoot := Some [] |}.

(** Kyra as the inventory page stores her, and a cleric from an imported
    file that gives no Constitution score. *)
Definition demoKyra : Stored.Character :=
  {| Stored.id := "c1"; Stored.name := "Kyra"; Stored.cls := "Warlock";
     Stored.level := Stored.Int 1; Stored.hp := Stored.NaN;
     Stored.maxHp := Stored.NaN; Stored.hitDie := Stored.NaN;
     Stored.hitDice := Stored.NaN; Stored.con := Stored.NaN;
     Stored.conditions := []; Stored.concentratingOn := None |}.

Definition mira : Stored.Character :=
  {| Stored.id := "c_mira"; Stored.name := "Mira"; Stored.cls := "Cleric";
     Stored.level := Stored.Int 3; Stored.hp := Stored.Int 20;
     Stored.maxHp := Stored.Int 22; Stored.hitDie := Stored.Int 8;
     Stored.hitDice := Stored.Int 3; Stored.con := Stored.NaN;
     Stored.conditions := []; Stored.concentratingOn := Some "Bless" |}.

(** A page that has the log and the quest list and no timeline rail. *)
Definition railless : Dashboard.Page :=
  {| Dashboard.txState := Dashboard.idle; Dashboard.log := [];
     Dashboard.timelineRail := None; Dashboard.questList := [];
     Dashboard.toastRoot := None |}.

Definition pausedPage : Dashboard.Page :=
  Dashboard.setState Dashboard.paused freshPage.

(** Messages of the narration service: a quest update, a session summary
    (which has no heading) and one with a heading no branch knows. *)
Definition questUpdate (name content : string) : Json :=
  JObj [("heading", JStr "Quest Update"); ("quest_name", JStr name);
        ("content", JStr content)].

Definition summaryMessage : Json :=
  JObj [("type", JStr "summary"); ("text", JStr "The party reached Greywatch.")].

Definition chatter : Json :=
  JObj [("heading", JStr "Table Talk"); ("content", JStr "Pizza is here.")].

Definition kyraActs : Json :=
  JObj [("heading", JStr "Character Action: kyra");
        ("content", JStr "Searches the crates.<br>Finds a key.")].

Definition narratorSpeaks : Json :=
  JObj [("heading", JStr "Character Outcome:  Narrator ");
        ("content", JStr "The fog thickens."); ("location", JStr "Greywatch")].

Definition headingWithoutColon : Json :=
  JObj [("heading", JStr "Character Action"); ("content", JStr "Waits.")].

(** An inventory page showing two items, the potion selected. *)
Definition potion : Inventory.Item :=
  {| Inventory.id := "i_potion"; Inventory.name := "Healing Potion";
     Inventory.type := "consumable"; Inventory.desc := "Heals 2d4+2 HP";
     Inventory.weight := 1 # 2; Inventory.qty := 1;
     Inventory.equipped := false |}.

Definition sword : Inventory.Item :=
  {| Inventory.id := "i_sword"; Inventory.name := "Shortsword";
     Inventory.type := "weapon"; Inventory.desc := "Versatile + simple";
     Inventory.weight := 2; Inventory.qty := 1; Inventory.equipped := true |}.

Definition pack : Inventory.State :=
  {| Inventory.inventory := [sword; potion];
     Inventory.selectedId := Some "i_potion";
     Inventory.activeFilter := "all"; Inventory.searchValue := "";
     Inventory.itemsEl := [Inventory.Card sword; Inventory.Card potion] |}.

End Samples.

(** * Properties *)

(** ** Rounding to the nearest double *)

Section RoundingFacts.

Lemma pow2_pos e : (0 < pow2 e)%Q.
Proof. apply Qpower_0_lt. reflexivity. Qed.

Lemma pow2_add a b : (pow2 (a + b) == pow2 a * pow2 b)%Q.
Proof. apply Qpower_plus. discriminate. Qed.

Lemma pow2_mono a b : a <= b -> (pow2 a <= pow2 b)%Q.
Proof. intros H. apply Qpower_le_compat_l; [exact H|discriminate]. Qed.

Lemma pow2_inject n : 0 <= n -> (pow2 n == inject_Z (2 ^ n))%Q.
Proof. intros H. unfold pow2. now rewrite Zpower_Qpower. Qed.

Lemma Qabs_nonneg_eq x : 0 <= Qnum x -> Qabs x = x.
Proof.
  destruct x as [n d]. simpl. intros H. now rewrite Z.abs_eq.
Qed.

(** [2 ^ ilog2 x <= x] for a positive [x]. *)
Lemma ilog2_le x : (0 < x)%Q -> (pow2 (ilog2 x) <= x)%Q.
Proof.
  intros Hx. unfold ilog2.
  destruct (Qle_bool _ x) eqn:E; [now apply Qle_bool_iff|].
  destruct x as [n d].
  assert (Hn : 0 < n).
  { unfold Qlt in Hx. simpl in Hx. lia. }
  cbn [Qnum Qden].
  set (a := Z.log2 n). set (b := Z.log2 (Z.pos d)).
  assert (Ha : 2 ^ a <= n) by (apply Z.log2_spec; exact Hn).
  assert (Hb : Z.pos d < 2 ^ (b + 1)).
  { replace (b + 1) with (Z.succ b) by lia. apply Z.log2_spec. lia. }
  assert (Ha0 : 0 <= a) by apply Z.log2_nonneg.
  assert (Hb0 : 0 <= b) by apply Z.log2_nonneg.
  set (P := pow2 (b + 1)).
  assert (HP : (0 < P)%Q) by apply pow2_pos.
  apply Qmult_le_r with (z := P); [exact HP|].
  assert (E1 : (pow2 (a - b - 1) * P == inject_Z (2 ^ a))%Q).
  { unfold P. rewrite <- pow2_add. replace (a - b - 1 + (b + 1)) with a by lia.
    now apply pow2_inject. }
  rewrite E1.
  assert (E2 : (inject_Z n <= (n # d) * P)%Q).
  { unfold P. rewrite pow2_inject by lia.
    unfold Qle. simpl. rewrite Pos.mul_1_r, Z.mul_1_r.
    apply Z.mul_le_mono_nonneg_l; lia. }
  eapply Qle_trans; [|exact E2].
  rewrite <- Zle_Qle. exact Ha.
Qed.

Lemma roundEven_ge_floor x : Qfloor x <= roundEven x.
Proof.
  unfold roundEven. destruct (_ ?= _)%Q; [destruct (Z.even _)| |]; lia.
Qed.

Lemma roundEven_le_succ x : roundEven x <= Qfloor x + 1.
Proof.
  unfold roundEven. destruct (_ ?= _)%Q; [destruct (Z.even _)| |]; lia.
Qed.

Lemma roundEven_nonneg x : (0 <= x)%Q -> 0 <= roundEven x.
Proof.
  intros H. pose proof (roundEven_ge_floor x).
  assert (0 <= Qfloor x); [|lia].
  change 0 with (Qfloor (inject_Z 0)) at 1. now apply Qfloor_resp_le.
Qed.

Lemma roundEven_below_half x n :
  (x < inject_Z n - (1 # 2))%Q -> roundEven x <= n - 1.
Proof.
  intros H.
  pose proof (Qfloor_le x) as Hf. pose proof (roundEven_le_succ x) as Hr.
  assert (Hfn : Qfloor x < n).
  { rewrite Zlt_Qlt. lra. }
  destruct (Z.eq_dec (Qfloor x) (n - 1)) as [E|E]; [|lia].
  assert (En : (inject_Z (n - 1) == inject_Z n - 1)%Q).
  { unfold Z.sub. rewrite inject_Z_plus, inject_Z_opp. reflexivity. }
  unfold roundEven.
  destruct (_ ?= _)%Q eqn:C; [| lia |].
  - apply Qeq_alt in C. rewrite E, En in C. lra.
  - apply Qgt_alt in C. rewrite E, En in C. lra.
Qed.

Lemma roundEven_le_int x n : (x <= inject_Z n)%Q -> roundEven x <= n.
Proof.
  intros H.
  pose proof (Qfloor_le x) as Hf. pose proof (roundEven_le_succ x) as Hr.
  assert (Hfn : Qfloor x <= n).
  { rewrite <- (Qfloor_Z n). now apply Qfloor_resp_le. }
  destruct (Z.eq_dec (Qfloor x) n) as [E|E]; [|lia].
  unfold roundEven.
  destruct (_ ?= _)%Q eqn:C; [| lia |].
  - apply Qeq_alt in C. rewrite E in C. lra.
  - apply Qgt_alt in C. rewrite E in C. lra.
Qed.

Lemma Qnum_nonneg x : (0 <= x)%Q -> 0 <= Qnum x.
Proof. unfold Qle. simpl. lia. Qed.

Lemma inject_Z_pred n : (inject_Z (n - 1) == inject_Z n - 1)%Q.
Proof. unfold Z.sub. rewrite inject_Z_plus, inject_Z_opp. reflexivity. Qed.

(** The product of a draw and a whole number of sides, rounded, stays
    below the number of sides. *)
Lemma fl_below (u : Q) (s : Z) :
  unitDraw u -> 1 <= s <= 2 ^ 53 ->
  (0 <= fl (u * inject_Z s))%Q /\ (fl (u * inject_Z s) < inject_Z s)%Q.
Proof.
  intros [H0 H1] Hs.
  assert (Hs0 : (0 < inject_Z s)%Q).
  { change 0%Q with (inject_Z 0). rewrite <- Zlt_Qlt. lia. }
  set (x := (u * inject_Z s)%Q).
  assert (Hx0 : (0 <= x)%Q).
  { unfold x. apply Qmult_le_0_compat; [exact H0|]. now apply Qlt_le_weak. }
  assert (Hx1 : (x <= maxRandom * inject_Z s)%Q).
  { unfold x. apply Qmult_le_compat_r; [exact H1|]. now apply Qlt_le_weak. }
  assert (Hxs : (x < inject_Z s)%Q).
  { eapply Qle_lt_trans; [exact Hx1|]. unfold maxRandom. lra. }
  unfold fl. destruct (Qeq_bool x 0) eqn:E0; [split; [lra|exact Hs0]|].
  apply Qeq_bool_neq in E0.
  assert (Hxp : (0 < x)%Q).
  { apply Qle_lteq in Hx0. destruct Hx0 as [H|H]; [exact H|].
    exfalso. apply E0. now symmetry. }
  unfold ulp. rewrite Qabs_nonneg_eq by now apply Qnum_nonneg.
  set (e := Z.max (ilog2 x) (-1022)).
  set (U := pow2 (e - 52)).
  assert (HU : (0 < U)%Q) by apply pow2_pos.
  set (k := Z.log2 s).
  assert (Hk : 2 ^ k <= s < 2 ^ (Z.succ k)) by (apply Z.log2_spec; lia).
  assert (Hk0 : 0 <= k) by apply Z.log2_nonneg.
  assert (Hk53 : k <= 53).
  { unfold k. rewrite <- (Z.log2_pow2 53) by lia. apply Z.log2_le_mono. lia. }
  pose proof (ilog2_le x Hxp) as Hlog.
  assert (Hik : ilog2 x <= k).
  { destruct (Z_le_gt_dec (ilog2 x) k) as [L|G]; [exact L|exfalso].
    assert (M : (pow2 (Z.succ k) <= pow2 (ilog2 x))%Q) by (apply pow2_mono; lia).
    rewrite pow2_inject in M by lia.
    assert (C : (inject_Z s < inject_Z (2 ^ Z.succ k))%Q) by (rewrite <- Zlt_Qlt; lia).
    lra. }
  assert (Hek : e <= k) by (unfold e; lia).
  assert (Hstrict : e = k -> 2 ^ k < s).
  { intros E. assert (E' : ilog2 x = k) by (unfold e in E; lia).
    rewrite E', pow2_inject in Hlog by lia.
    rewrite Zlt_Qlt. lra. }
  assert (He52 : e <= 52).
  { destruct (Z.eq_dec e 53) as [E|E]; [|lia].
    assert (E' : e = k) by lia. specialize (Hstrict E').
    replace k with 53 in Hstrict by lia. lia. }
  set (N := s * 2 ^ (52 - e)).
  assert (HN : (inject_Z N * U == inject_Z s)%Q).
  { unfold N, U. rewrite inject_Z_mult, <- pow2_inject by lia.
    rewrite <- Qmult_assoc, <- pow2_add.
    replace (52 - e + (e - 52)) with 0 by lia.
    change (pow2 0) with 1%Q. ring. }
  assert (Hdiv : (x / U == u * inject_Z N)%Q).
  { unfold x. rewrite <- HN. field. lra. }
  assert (Hpow : 0 < 2 ^ (52 - e)) by (apply Z.pow_pos_nonneg; lia).
  assert (Hround : roundEven (x / U) <= N - 1).
  { assert (Hub : (u * inject_Z N <= maxRandom * inject_Z N)%Q).
    { apply Qmult_le_compat_r; [exact H1|].
      change 0%Q with (inject_Z 0). rewrite <- Zle_Qle. unfold N. nia. }
    destruct (Z.eq_dec e k) as [E|E].
    - (* the binade of [s]: more than half a step below [s] *)
      specialize (Hstrict E).
      assert (HN52 : 2 ^ 52 + 1 <= N).
      { unfold N. rewrite E.
        assert (P : 2 ^ k * 2 ^ (52 - k) = 2 ^ 52).
        { rewrite <- Z.pow_add_r by lia. f_equal. lia. }
        assert (0 < 2 ^ (52 - k)) by (apply Z.pow_pos_nonneg; lia).
        nia. }
      apply roundEven_below_half. rewrite Hdiv.
      assert (Q1 : (inject_Z (2 ^ 52 + 1) <= inject_Z N)%Q)
        by (rewrite <- Zle_Qle; exact HN52).
      change (inject_Z (2 ^ 52 + 1)) with (4503599627370497 # 1)%Q in Q1.
      unfold maxRandom in Hub. lra.
    - (* a lower binade: a whole step below [s] *)
      assert (HN53 : 2 ^ 53 <= N).
      { unfold N.
        assert (P : 2 ^ 53 <= 2 ^ (k + (52 - e))) by (apply Z.pow_le_mono_r; lia).
        rewrite Z.pow_add_r in P by lia. nia. }
      apply roundEven_le_int. rewrite Hdiv, inject_Z_pred.
      assert (Q1 : (inject_Z (2 ^ 53) <= inject_Z N)%Q)
        by (rewrite <- Zle_Qle; exact HN53).
      change (inject_Z (2 ^ 53)) with (9007199254740992 # 1)%Q in Q1.
      unfold maxRandom in Hub. lra. }
  split.
  - apply Qmult_le_0_compat; [|now apply Qlt_le_weak].
    change 0%Q with (inject_Z 0). rewrite <- Zle_Qle.
    apply roundEven_nonneg. apply Qle_shift_div_l; [exact HU|]. lra.
  - apply Qle_lt_trans with (y := (inject_Z (N - 1) * U)%Q).
    + apply Qmult_le_compat_r; [|now apply Qlt_le_weak].
      rewrite <- Zle_Qle. exact Hround.
    + rewrite inject_Z_pred. rewrite <- HN. lra.
Qed.

End RoundingFacts.

(** ** characters.js *)

Section CharacterFacts.
Import Characters.

Lemma truthy_set_hp v c : concentratingOn (set_hp v c) = concentratingOn c.
Proof. reflexivity. Qed.

(** A die with [sides] faces shows 1 to [sides]. *)
Lemma rollDie_range (sides : Z) (u : Q) :
  unitDraw u -> 1 <= sides <= 2 ^ 53 -> 1 <= rollDie sides u <= sides.
Proof.
  intros Hu Hs. unfold rollDie.
  destruct (fl_below u sides Hu Hs) as [Hlo Hhi].
  split.
  - assert (0 <= Qfloor (fl (u * inject_Z sides))); [|lia].
    change 0 with (Qfloor (inject_Z 0)) at 1. now apply Qfloor_resp_le.
  - assert (Qfloor (fl (u * inject_Z sides)) < sides); [|lia].
    rewrite Zlt_Qlt.
    eapply Qle_lt_trans; [apply Qfloor_le|exact Hhi].
Qed.

Lemma rollHitDice_ge n : forall i rng c total,
  total <= rollHitDice n i rng c total.
Proof.
  induction n as [|n IH]; intros i rng c total; simpl; [lia|].
  specialize (IH (S i) rng c
    (total + Z.max 0 (rollDie (hitDie c) (rng i) + abilityMod (con c)))).
  lia.
Qed.

(** The loop adds [max(0, roll + mod)] for each die, in the order rolled. *)
Lemma rollHitDice_sum n : forall i rng c total,
  rollHitDice n i rng c total =
  total + fold_right Z.add 0
            (map (fun k => Z.max 0 (rollDie (hitDie c) (rng k) + abilityMod (con c)))
                 (seq i n)).
Proof.
  induction n as [|n IH]; intros i rng c total; simpl; [lia|].
  rewrite IH. lia.
Qed.

(** The proficiency table of the spec. *)
Example calcProf_table :
  map calcProf [1; 4; 5; 8; 9; 12; 13; 16; 17; 20] = [2; 2; 3; 3; 4; 4; 5; 5; 6; 6].
Proof. reflexivity. Qed.

(** A listener reaches the first character with the selected id and
    rewrites it in place; the rest of the roster is as it was. *)
Lemma mutateFirst_found sel f cs c :
  findChar sel cs = Some c ->
  exists front back,
    cs = (front ++ c :: back)%list /\
    findChar sel front = None /\
    mutateFirst sel f cs = (front ++ f c :: back)%list.
Proof.
  unfold findChar. induction cs as [|x cs IH]; simpl; [discriminate|].
  destruct (String.eqb (id x) sel) eqn:E.
  - intros [= ->]. exists [], cs. repeat split.
  - intros H. destruct (IH H) as (front & back & -> & Hn & Hm).
    exists (x :: front), back. simpl. rewrite E, Hm. repeat split. exact Hn.
Qed.

Lemma onSelected_found f sel st c :
  findChar sel (characters st) = Some c ->
  exists front back,
    characters st = (front ++ c :: back)%list /\
    onSelected f sel st =
      Ok {| characters := (front ++ f c :: back)%list;
            selectedCharId := selectedCharId st |}.
Proof.
  intros H. unfold onSelected. rewrite H.
  destruct (mutateFirst_found sel f _ _ H) as (front & back & E & _ & M).
  exists front, back. split; [exact E|]. now rewrite M.
Qed.

End CharacterFacts.

Section CharacterClaims.
Import Characters Samples.

(** The spec's example: Seren (20 hit points, CON 14, level 3,
    concentrating on Bless) takes 6 damage.  A d20 of 3 gives 3 + 2 + 2 = 7,
    under the difficulty 10, and ends the concentration; a d20 of 11 gives
    15 and keeps it. *)
Example seren_takes_six :
  rollD20 (1 # 10) = 3 /\ rollD20 (1 # 2) = 11 /\
  hp (damage 6 (1 # 10) seren) = 14 /\
  concentratingOn (damage 6 (1 # 10) seren) = None /\
  concentratingOn (damage 6 (1 # 2) seren) = Some "Bless".
Proof. vm_compute. repeat split. Qed.

(** C7. After a long rest hit points equal [maxHp], hit dice are
    [min(L, h + ceil(L / 2))] for level [L] and hit dice [h] (a count, so
    not negative), no condition is left and concentration is cleared. *)
Theorem C7_long_rest (c : Character) :
  0 <= hitDice c ->
  let c' := longRest c in
  hp c' = maxHp c /\
  hitDice c' = Z.min (level c) (hitDice c + ceil_div (level c) 2) /\
  conditions c' = [] /\
  concentratingOn c' = None.
Proof.
  intros Hh. cbv zeta. unfold longRest. cbn.
  repeat split.
  unfold js_or.
  destruct (Z.eqb_spec (level c) 0) as [E|E];
    destruct (Z.eqb_spec (hitDice c) 0) as [E'|E']; rewrite ?E, ?E';
    try reflexivity.
  change (ceil_div 1 2) with 1. change (ceil_div 0 2) with 0. lia.
Qed.

(** The spec's example: level 4 with one hit die left recovers two. *)
Lemma C7_long_rest_witness :
  0 <= hitDice veteran /\
  hp (longRest veteran) = 30 /\ hitDice (longRest veteran) = 3 /\
  conditions (longRest veteran) = [] /\
  concentratingOn (longRest veteran) = None.
Proof.
  assert (Hh : 0 <= hitDice veteran) by (vm_compute; discriminate).
  split; [exact Hh|].
  destruct (C7_long_rest veteran Hh) as (H1 & H2 & H3 & H4).
  rewrite H1, H2, H3, H4. repeat split.
Defined.

(** A short rest of a character who has hit dice left: at most [hitDice]
    dice are spent, each adds [max(0, roll + CON modifier)], hit points
    rise by the total up to [maxHp], and [hitDice] drops by the dice
    spent. *)
Lemma shortRest_with_hit_dice (spent : Z) (rng : nat -> Q) (c : Character) :
  0 < hitDice c -> 0 < spent ->
  let toSpend := Z.min (hitDice c) spent in
  let total :=
    fold_right Z.add 0
      (map (fun k => Z.max 0 (rollDie (hitDie c) (rng k) + abilityMod (con c)))
           (seq 0 (Z.to_nat toSpend))) in
  0 < toSpend <= hitDice c /\
  hp (shortRest (Some spent) rng c) = Z.min (maxHp c) (hp c + total) /\
  hitDice (shortRest (Some spent) rng c) = hitDice c - toSpend.
Proof.
  intros Hh Hs. cbv zeta. unfold shortRest, maxPossible, js_or.
  destruct (Z.eqb_spec (hitDice c) 0) as [E|E]; [lia|].
  destruct (Z.leb_spec spent 0) as [L|L]; [lia|].
  cbn. destruct (Z.eqb_spec (hitDice c) 0) as [E'|_]; [lia|].
  rewrite rollHitDice_sum, Z.add_0_l.
  repeat split; lia.
Qed.

(** C8, at the input where the code departs from it.  Thorne has no hit
    die left ([hitDice = 0]); asked to spend one, the short rest reads
    [c.hitDice || Math.max(1, Math.floor(c.level / 2))] as 1, rolls one die
    (5 on the d8, +1 for CON 12), raises his hit points from 5 to 11 and
    leaves [hitDice] at 0. *)
Theorem C8_short_rest_without_hit_dice :
  hitDice thorneSpent = 0 /\ hp thorneSpent = 5 /\
  maxPossible thorneSpent = 1 /\
  hp (shortRest (Some 1) half thorneSpent) = 11 /\
  hitDice (shortRest (Some 1) half thorneSpent) = 0.
Proof. vm_compute. repeat split. Qed.

End CharacterClaims.

Section HitPointInvariant.
Import Characters Samples.

Lemma hp_ok_shortRest spent rng c : hp_ok c -> hp_ok (shortRest spent rng c).
Proof.
  unfold hp_ok, shortRest. intros H.
  destruct spent as [n|]; [|exact H].
  destruct (n <=? 0); [exact H|]. cbn.
  pose proof (rollHitDice_ge (Z.to_nat (Z.min (maxPossible c) n)) 0 rng c 0).
  lia.
Qed.

Lemma hp_ok_damage amt u c : hp_ok c -> 0 <= amt -> hp_ok (damage amt u c).
Proof.
  unfold hp_ok, damage. intros H Ha.
  destruct (truthy _); [destruct (negb _)|]; cbn; lia.
Qed.

Lemma hp_ok_heal amt c : hp_ok c -> 0 <= amt -> hp_ok (heal amt c).
Proof. unfold hp_ok, heal. intros H Ha. cbn. lia. Qed.

Lemma hp_ok_longRest c : hp_ok c -> hp_ok (longRest c).
Proof. unfold hp_ok, longRest. intros H. cbn. lia. Qed.

Lemma mutateFirst_Forall (P : Character -> Prop) f sel cs :
  (forall c, P c -> P (f c)) -> Forall P cs -> Forall P (mutateFirst sel f cs).
Proof.
  intros Hf H. induction H as [|x l Hx Hl IH]; simpl; [constructor|].
  destruct (String.eqb (id x) sel); constructor; auto.
Qed.

Lemma onSelected_Forall (P : Character -> Prop) f sel st :
  (forall c, P c -> P (f c)) -> Forall P (characters st) ->
  Forall P (characters (after (onSelected f sel st) st)).
Proof.
  intros Hf H. unfold onSelected.
  destruct (findChar sel (characters st)); simpl; [|exact H].
  now apply mutateFirst_Forall.
Qed.

(** The same invariant on the roster, through the click listeners. *)
Lemma click_keeps_hit_points_in_range (a : Action) (st : State) :
  Forall hp_ok (characters st) -> nonneg_amount a ->
  Forall hp_ok (characters (after (click a st) st)).
Proof.
  intros H Ha.
  destruct a as [input u|input|input rng|]; simpl;
    unfold btnDamage_click, btnHeal_click, btnShortRest_click, btnLongRest_click;
    destruct (negb (truthy (selectedCharId st))); simpl; try exact H;
    unfold nonneg_amount in Ha; simpl in Ha.
  - destruct input as [d|], (selectedCharId st) as [sel|]; simpl; try exact H.
    apply onSelected_Forall; [|exact H].
    intros c Hc. now apply hp_ok_damage.
  - destruct input as [d|], (selectedCharId st) as [sel|]; simpl; try exact H.
    apply onSelected_Forall; [|exact H].
    intros c Hc. now apply hp_ok_heal.
  - destruct (selectedCharId st) as [sel|]; simpl; try exact H.
    apply onSelected_Forall; [|exact H].
    intros c Hc. now apply hp_ok_shortRest.
  - destruct (selectedCharId st) as [sel|]; simpl; try exact H.
    apply onSelected_Forall; [|exact H].
    intros c Hc. now apply hp_ok_longRest.
Qed.

(** A long rest for the selected character of the sample roster (level 4,
    one hit die, 7 of 30 hit points); the others are untouched. *)
Example long_rest_on_roster :
  map (fun c => (name c, hp c, hitDice c))
      (characters (after (click LongRest roster) roster)) =
  [("Seren", 20, 3); ("Thorne", 5, 0); ("Kyra", 30, 3)].
Proof. reflexivity. Qed.

End HitPointInvariant.

(** ** characters.js on stored characters *)

Section StoredFacts.
Import Stored Samples.

Lemma ofSheet_rollHitDice n : forall i rng c t,
  rollHitDice n i rng (ofSheet c) (Int t) =
  Int (Characters.rollHitDice n i rng c t).
Proof.
  induction n as [|n IH]; intros i rng c t; [reflexivity|].
  cbn [rollHitDice Characters.rollHitDice]. cbv zeta.
  rewrite <- IH. reflexivity.
Qed.

(** On a character that has every field the listeners are those of
    [Characters]. *)
Lemma ofSheet_refines (c : Characters.Character) (amt : Z) (u : Q)
    (spent : option Z) (rng : nat -> Q) (newName : string)
    (newCls : option string) (lvl mx : option Z) :
  damage amt u (ofSheet c) = ofSheet (Characters.damage amt u c) /\
  heal amt (ofSheet c) = ofSheet (Characters.heal amt c) /\
  shortRest spent rng (ofSheet c) = ofSheet (Characters.shortRest spent rng c) /\
  longRest (ofSheet c) = ofSheet (Characters.longRest c) /\
  conCheck amt u (ofSheet c) = ofSheet (Characters.conCheck amt u c) /\
  editChar newName newCls lvl mx (ofSheet c) =
    ofSheet (Sheet.editChar newName newCls lvl mx c).
Proof.
  split; [|split; [|split; [|split; [|split]]]].
  - unfold damage, Characters.damage. cbn.
    destruct (truthy (Characters.concentratingOn c)); [|reflexivity].
    destruct (Characters.concentrationDC amt <=? _) eqn:E;
      unfold concentrationDC, rollD20, Characters.concentrationDC,
        Characters.rollD20, Characters.abilityMod in *;
      rewrite E; reflexivity.
  - reflexivity.
  - unfold shortRest, Characters.shortRest.
    destruct spent as [n|]; [|reflexivity].
    destruct (n <=? 0); [reflexivity|].
    unfold maxPossible, Characters.maxPossible, js_or. cbn.
    destruct (Characters.hitDice c =? 0); cbn;
      rewrite ofSheet_rollHitDice; reflexivity.
  - unfold longRest, Characters.longRest, js_or. cbn.
    destruct (Characters.level c =? 0), (Characters.hitDice c =? 0);
      reflexivity.
  - unfold conCheck, Characters.conCheck. cbn.
    destruct (truthy (Characters.concentratingOn c)); [|reflexivity].
    cbn.
    destruct (Characters.concentrationDC amt <=? _) eqn:E;
      unfold concentrationDC, rollD20, Characters.concentrationDC,
        Characters.rollD20, Characters.abilityMod in *;
      rewrite E; reflexivity.
  - unfold editChar, Sheet.editChar, numberOr, Sheet.numberOr, js_or. cbn.
    destruct lvl as [l|], mx as [m|]; cbn;
      try destruct (l =? 0); try destruct (m =? 0); reflexivity.
Qed.

Lemma rollD20_range u : unitDraw u -> 1 <= rollD20 u <= 20.
Proof.
  intros Hu. unfold rollD20. apply rollDie_range; [exact Hu|].
  split; vm_compute; discriminate.
Qed.

(** C5. Damage [d] on a character whose hit points are the number [h]:
    hit points become [max(0, h - d)].  The difficulty of the concentration
    check is [max(10, floor(d / 2))], which is 10 for damage 6.  The d20
    shows 1 to 20, each face on its twentieth of the draws; the proficiency
    bonus is 2 below level 5 (and for a missing level), 6 above level 16 and
    [2 + floor((l - 1) / 4)] on levels 1 to 20.  For a character with the
    Constitution score [k] the
    roll is d20 + [floor((k - 10) / 2)] + proficiency (damage button) or
    d20 + [floor((k - 10) / 2)] (concentration check button), and a
    character who is concentrating loses [concentratingOn] exactly when the
    roll is below the difficulty.  For a character stored without a
    Constitution score the roll is NaN, [roll >= dc] is false and
    concentration is lost whatever the d20 shows. *)
Theorem C5_damage_concentration_check (d : Z) (u : Q) (c : Character) :
  unitDraw u ->
  let dc := Z.max 10 (d / 2) in
  let face := rollD20 u in
  1 <= face <= 20 /\
  map (fun k => rollD20 (k # 20))
      [0; 1; 2; 3; 4; 5; 6; 7; 8; 9; 10; 11; 12; 13; 14; 15; 16; 17; 18; 19]
    = [1; 2; 3; 4; 5; 6; 7; 8; 9; 10; 11; 12; 13; 14; 15; 16; 17; 18; 19; 20] /\
  (forall h, hp c = Int h -> hp (damage d u c) = Int (Z.max 0 (h - d))) /\
  hp (conCheck d u c) = hp c /\
  concentrationDC d = dc /\
  concentrationDC 6 = 10 /\
  (forall l, level c = Int l ->
     (1 <= l <= 20 -> calcProf (level c) = 2 + (l - 1) / 4) /\
     (l < 5 -> calcProf (level c) = 2) /\
     (16 < l -> calcProf (level c) = 6)) /\
  (level c = NaN -> calcProf (level c) = 2) /\
  (forall k, con c = Int k ->
     let roll := face + (k - 10) / 2 + calcProf (level c) in
     let roll' := face + (k - 10) / 2 in
     concentratingOn (damage d u c) =
       (if truthy (concentratingOn c) && (roll <? dc) then None
        else concentratingOn c) /\
     concentratingOn (conCheck d u c) =
       (if truthy (concentratingOn c) && (roll' <? dc) then None
        else concentratingOn c)) /\
  (con c = NaN -> truthy (concentratingOn c) = true ->
     concentratingOn (damage d u c) = None /\
     concentratingOn (conCheck d u c) = None).
Proof.
  intros Hu. cbv zeta.
  split; [now apply rollD20_range|].
  split; [vm_compute; reflexivity|].
  split; [|split; [|split; [reflexivity|split; [reflexivity|
    split; [|split; [|split]]]]]].
  - intros h Hh. unfold damage. cbn [concentratingOn set_hp]. rewrite Hh.
    destruct (truthy (concentratingOn c)); [|reflexivity].
    destruct (negb _); reflexivity.
  - unfold conCheck.
    destruct (truthy (concentratingOn c)); [|reflexivity].
    cbn. destruct (ngeq _ _); reflexivity.
  - intros l Hl. rewrite Hl. unfold calcProf, Characters.calcProf.
    destruct (Z.leb_spec 17 l), (Z.leb_spec 13 l), (Z.leb_spec 9 l),
             (Z.leb_spec 5 l); try lia;
      (split; [|split]); intros ?; try lia;
      Z.div_mod_to_equations; lia.
  - intros Hl. rewrite Hl. reflexivity.
  - intros k Hk. unfold damage, conCheck.
    cbn [concentratingOn con level set_hp]. rewrite Hk.
    destruct (truthy (concentratingOn c)); [|split; reflexivity].
    cbn [negb andb abilityMod nadd lift2 ngeq]. unfold concentrationDC.
    split.
    + destruct (Z.leb_spec (Z.max 10 (d / 2))
                  (rollD20 u + (k - 10) / 2 + calcProf (level c)));
        destruct (Z.ltb_spec
                    (rollD20 u + (k - 10) / 2 + calcProf (level c))
                    (Z.max 10 (d / 2))); try reflexivity; lia.
    + destruct (Z.leb_spec (Z.max 10 (d / 2)) (rollD20 u + (k - 10) / 2));
        destruct (Z.ltb_spec (rollD20 u + (k - 10) / 2) (Z.max 10 (d / 2)));
        try reflexivity; lia.
  - intros Hk Ht. unfold damage, conCheck.
    cbn [concentratingOn con level set_hp]. rewrite Hk, Ht.
    split; reflexivity.
Qed.

(** The spec's example: Seren (20 hit points, CON 14, level 3,
    concentrating on Bless) takes 6 damage and the d20 shows 3. *)
Lemma C5_damage_witness :
  unitDraw (1 # 10) /\
  rollD20 (1 # 10) = 3 /\
  hp (damage 6 (1 # 10) (ofSheet Characters.seren)) = Int 14 /\
  concentratingOn (damage 6 (1 # 10) (ofSheet Characters.seren)) = None.
Proof.
  assert (Hu : unitDraw (1 # 10)) by (split; vm_compute; discriminate).
  split; [exact Hu|]. split; [vm_compute; reflexivity|].
  destruct (C5_damage_concentration_check 6 (1 # 10)
              (ofSheet Characters.seren) Hu)
    as (_ & _ & Hhp & _ & _ & _ & _ & _ & Hroll & _).
  split.
  - exact (Hhp 20 eq_refl).
  - destruct (Hroll 14 eq_refl) as [E _]. rewrite E. vm_compute. reflexivity.
Defined.

(** Where the code departs from C5: Mira, stored without a Constitution
    score and concentrating on Bless, takes 6 damage while the d20 shows 20.
    The difficulty is 10; the roll is NaN, which is not below 10, and she
    loses the spell.  With the Constitution score 10 the same draw gives
    20 + 0 + 2 and keeps it. *)
Example concentration_lost_without_con :
  unitDraw maxRandom /\ rollD20 maxRandom = 20 /\
  con mira = NaN /\ concentrationDC 6 = 10 /\
  concentratingOn (damage 6 maxRandom mira) = None /\
  concentratingOn (conCheck 6 maxRandom mira) = None /\
  concentratingOn (damage 6 maxRandom (ofSheet Characters.seren))
    = Some "Bless".
Proof.
  split; [split; vm_compute; discriminate|].
  vm_compute. repeat split.
Qed.

Lemma rollHitDice_NaN n : forall i rng c,
  rollHitDice n i rng c NaN = NaN.
Proof.
  induction n as [|n IH]; intros i rng c; [reflexivity|].
  cbn [rollHitDice]. cbv zeta. apply IH.
Qed.

(** One die rolled without a hit die or without a Constitution score
    makes the total NaN. *)
Lemma rollHitDice_missing n i rng c total :
  hitDie c = NaN \/ con c = NaN ->
  rollHitDice (S n) i rng c total = NaN.
Proof.
  intros H. cbn [rollHitDice]. cbv zeta.
  replace (nadd (rollDie (hitDie c) (rng i)) (abilityMod (con c))) with NaN.
  - replace (nadd total (nmax (Int 0) NaN)) with NaN
      by (destruct total; reflexivity).
    apply rollHitDice_NaN.
  - destruct H as [H|H]; rewrite H; [reflexivity|].
    destruct (rollDie (hitDie c) (rng i)); reflexivity.
Qed.

(** With a hit die and a Constitution score the dice add a number that is
    not negative. *)
Lemma rollHitDice_number n : forall i rng c s k t,
  hitDie c = Int s -> con c = Int k -> 0 <= t ->
  exists t', rollHitDice n i rng c (Int t) = Int t' /\ 0 <= t'.
Proof.
  induction n as [|n IH]; intros i rng c s k t Hs Hk Ht.
  - exists t. split; [reflexivity|exact Ht].
  - cbn [rollHitDice]. cbv zeta. rewrite Hs, Hk.
    cbn [rollDie abilityMod nadd nmax lift2].
    apply (IH (S i) rng c s k); [exact Hs|exact Hk|lia].
Qed.

(** C9. A stored character whose hit points are a number with
    [0 <= hp <= maxHp] still has that after damage or healing by an amount
    that is not negative and after a long rest; after a short rest too,
    whatever is typed and whatever the dice show, when the character has a
    hit die and a Constitution score.  A short rest that rolls a die for a
    character stored without one of the two leaves NaN hit points. *)
Theorem C9_hit_points_stay_in_range (c : Character) (amt : Z) (u : Q)
    (spent : option Z) (rng : nat -> Q) :
  hp_ok c -> 0 <= amt ->
  hp_ok (damage amt u c) /\
  hp_ok (heal amt c) /\
  hp_ok (longRest c) /\
  (hitDie c <> NaN -> con c <> NaN -> hp_ok (shortRest spent rng c)) /\
  (forall n m, spent = Some n -> 0 < n -> maxPossible c = Int m -> 0 < m ->
     hitDie c = NaN \/ con c = NaN ->
     hp (shortRest spent rng c) = NaN /\ ~ hp_ok (shortRest spent rng c)).
Proof.
  intros (h & m & Hh & Hm & Hr) Ha.
  split; [|split; [|split; [|split]]].
  - exists (Z.max 0 (h - amt)), m. unfold damage.
    cbn [concentratingOn set_hp]. rewrite Hh.
    destruct (truthy (concentratingOn c)); [destruct (negb _)|];
      cbn; (split; [reflexivity|split; [exact Hm|lia]]).
  - exists (Z.min m (h + amt)), m. unfold heal. cbn. rewrite Hh, Hm.
    split; [reflexivity|split; [reflexivity|lia]].
  - exists m, m. unfold longRest. cbn.
    split; [exact Hm|split; [exact Hm|lia]].
  - intros Hd Hc. unfold shortRest.
    destruct spent as [n|]; [|exists h, m; auto].
    destruct (n <=? 0); [exists h, m; auto|].
    destruct (hitDie c) as [|s] eqn:Es; [contradiction|].
    destruct (con c) as [|k] eqn:Ek; [contradiction|].
    destruct (rollHitDice_number
                (rounds (nmin (maxPossible c) (Int n))) 0 rng c s k 0 Es Ek)
      as (t & Et & Ht); [lia|].
    exists (Z.min m (h + t)), m. cbn. rewrite Et, Hh, Hm.
    split; [reflexivity|split; [reflexivity|lia]].
  - intros n mp -> Hn Hmp Hpos Hmiss. unfold shortRest.
    destruct (Z.leb_spec n 0) as [L|_]; [lia|].
    rewrite Hmp. cbn [nmin lift2 rounds].
    destruct (Z.to_nat (Z.min mp n)) as [|r] eqn:Er; [lia|].
    rewrite rollHitDice_missing by exact Hmiss.
    assert (E : hp (set_hitDice
                      (nsub (nor (hitDice (set_hp (nmin (maxHp c) (nadd (hp c) NaN)) c))
                                 (Int mp)) (Int (Z.min mp n)))
                      (set_hp (nmin (maxHp c) (nadd (hp c) NaN)) c)) = NaN).
    { cbn. rewrite Hh, Hm. reflexivity. }
    split; [exact E|].
    intros (h' & m' & Hh' & _). rewrite E in Hh'. discriminate.
Qed.

Lemma C9_hit_points_witness :
  hp_ok (ofSheet Characters.seren) /\ 0 <= 6 /\
  hp (damage 6 (1 # 10) (ofSheet Characters.seren)) = Int 14 /\
  hp_ok (shortRest (Some 2) half (ofSheet Characters.seren)).
Proof.
  assert (H : hp_ok (ofSheet Characters.seren)).
  { exists 20, 22. cbn. repeat split; lia. }
  assert (Ha : 0 <= 6) by lia.
  split; [exact H|]. split; [exact Ha|]. split; [vm_compute; reflexivity|].
  destruct (C9_hit_points_stay_in_range (ofSheet Characters.seren) 6 (1 # 10)
              (Some 2) half H Ha) as (_ & _ & _ & Hs & _).
  apply Hs; discriminate.
Defined.

(** Where the code departs from C9: Kyra as the inventory page stores her
    ([{ id, name, cls, level: 1 }]).  Edit sets her maximum to 10, a long
    rest gives her 10 of 10 hit points and one hit die; a short rest that
    spends the die rolls [rollDie(undefined)] and leaves her hit points
    NaN. *)
Example short_rest_without_hit_die :
  let edited := editChar "Kyra" None None (Some 10) demoKyra in
  let rested := longRest edited in
  hitDie demoKyra = NaN /\
  hp edited = NaN /\ maxHp edited = Int 10 /\
  hp rested = Int 10 /\ maxHp rested = Int 10 /\ hitDice rested = Int 1 /\
  hp_ok rested /\
  maxPossible rested = Int 1 /\
  hp (shortRest (Some 1) half rested) = NaN /\
  ~ hp_ok (shortRest (Some 1) half rested).
Proof.
  cbv zeta. repeat (split; [reflexivity|]).
  split; [exists 10, 10; cbn; repeat split; lia|].
  split; [reflexivity|]. split; [reflexivity|].
  intros (h & m & Hh & _). discriminate Hh.
Qed.

End StoredFacts.

(** ** [Array.prototype.sort] *)

Section SortFacts.
Context {A : Type} (compareFn : A -> A -> Z).

Lemma insertBy_perm x l : Permutation (insertBy compareFn x l) (x :: l).
Proof.
  induction l as [|y l IH]; simpl; [reflexivity|].
  destruct (0 <? compareFn x y); [|reflexivity].
  rewrite IH. apply perm_swap.
Qed.

Lemma sortBy_perm l : Permutation (sortBy compareFn l) l.
Proof.
  induction l as [|x l IH]; simpl; [constructor|].
  rewrite insertBy_perm. now constructor.
Qed.

Lemma filter_length_insertBy (p : A -> bool) x l :
  List.length (filter p (insertBy compareFn x l)) =
  List.length (filter p (x :: l)).
Proof.
  induction l as [|y l IH]; simpl; [reflexivity|].
  destruct (0 <? compareFn x y); simpl; [|reflexivity].
  simpl in IH. destruct (p y), (p x); simpl in *; lia.
Qed.

Lemma filter_length_sortBy (p : A -> bool) l :
  List.length (filter p (sortBy compareFn l)) = List.length (filter p l).
Proof.
  induction l as [|x l IH]; simpl; [reflexivity|].
  rewrite filter_length_insertBy. simpl.
  destruct (p x); simpl; lia.
Qed.
End SortFacts.

(** ** inventory.js: the global timeline *)

Section TimelineFacts.
Import Quests.

Lemma insertBy_sorted x l :
  StronglySorted newerFirst l ->
  StronglySorted newerFirst (insertBy byTsDesc x l).
Proof.
  induction 1 as [|y l Hl IH Hy]; simpl.
  - repeat constructor.
  - unfold byTsDesc at 1.
    destruct (Z.ltb_spec 0 (ts (ev y) - ts (ev x))) as [Hlt|Hge].
    + constructor; [exact IH|].
      rewrite insertBy_perm.
      constructor; [unfold newerFirst; lia|exact Hy].
    + constructor; [constructor; assumption|].
      constructor; [unfold newerFirst; lia|].
      eapply Forall_impl; [|exact Hy].
      unfold newerFirst. intros z Hz. lia.
Qed.

Lemma sortBy_sorted l : StronglySorted newerFirst (sortBy byTsDesc l).
Proof.
  induction l as [|x l IH]; simpl; [constructor|].
  now apply insertBy_sorted.
Qed.

(** Stability: an entry moves only past entries with a later stamp. *)
Lemma insertBy_stable t x l :
  filter (stampedAt t) (insertBy byTsDesc x l) = filter (stampedAt t) (x :: l).
Proof.
  induction l as [|y l IH]; simpl; [reflexivity|].
  unfold byTsDesc at 1.
  destruct (Z.ltb_spec 0 (ts (ev y) - ts (ev x))) as [Hlt|Hge];
    [|reflexivity].
  simpl. rewrite IH. simpl. unfold stampedAt.
  destruct (Z.eqb_spec (ts (ev y)) t), (Z.eqb_spec (ts (ev x)) t);
    try reflexivity.
  lia.
Qed.

Lemma sortBy_stable t l :
  filter (stampedAt t) (sortBy byTsDesc l) = filter (stampedAt t) l.
Proof.
  induction l as [|x l IH]; simpl; [reflexivity|].
  rewrite insertBy_stable. simpl. now rewrite IH.
Qed.

Lemma questEntries_tag q : Forall (fun e => quest e = title q) (questEntries q).
Proof.
  unfold questEntries. apply Forall_app. split.
  - apply Forall_forall. intros e He. apply in_map_iff in He.
    destruct He as (x & <- & _). reflexivity.
  - repeat constructor.
Qed.

Lemma questEntries_length q :
  List.length (questEntries q) = (List.length (orEmpty (events q)) + 1)%nat.
Proof.
  unfold questEntries. now rewrite length_app, length_map.
Qed.

Lemma filter_all {B : Type} (p : B -> bool) l :
  Forall (fun x => p x = true) l -> filter p l = l.
Proof.
  induction 1 as [|x l Hx _ IH]; simpl; [reflexivity|].
  now rewrite Hx, IH.
Qed.

Lemma filter_none {B : Type} (p : B -> bool) l :
  Forall (fun x => p x = false) l -> filter p l = [].
Proof.
  induction 1 as [|x l Hx _ IH]; simpl; [reflexivity|].
  now rewrite Hx.
Qed.

Lemma tagged_count T qs :
  List.length (filter (taggedWith T) (allEvents qs)) =
  list_sum (map (fun q => (List.length (orEmpty (events q)) + 1)%nat)
                (filter (fun q => String.eqb (title q) T) qs)).
Proof.
  induction qs as [|q qs IH]; simpl; [reflexivity|].
  rewrite filter_app, length_app, IH.
  destruct (String.eqb_spec (title q) T) as [E|E]; simpl.
  - rewrite filter_all, questEntries_length; [reflexivity|].
    eapply Forall_impl; [|apply questEntries_tag].
    intros e He. unfold taggedWith. rewrite He. now apply String.eqb_eq.
  - rewrite filter_none; [reflexivity|].
    eapply Forall_impl; [|apply questEntries_tag].
    intros e He. unfold taggedWith. rewrite He. now apply String.eqb_neq.
Qed.

(** C1. The global timeline: a quest stored with the event list [E]
    contributes the events of [E] as they are, in their order and tagged
    with the quest's title, and after them one quest-created entry stamped
    with the quest's creation time, [len(E) + 1] entries in all (a quest
    stored without an [events] array contributes the quest-created entry
    alone); the timeline is a rearrangement of these contributions, newest
    first, and entries with the same stamp stay in the order they were
    pushed.  The entries tagged with a title are those of the quests that
    bear it. *)
Theorem C1_global_timeline (quests : list Quest) :
  let out := renderGlobalTimeline quests in
  (forall q E, events q = Some E ->
      questEntries q =
        (map (fun e => {| ev := e; quest := title q |}) E
           ++ [createdEntry q])%list /\
      map ev (questEntries q) = (E ++ [ev (createdEntry q)])%list /\
      List.length (questEntries q) = (List.length E + 1)%nat) /\
  (forall q, events q = None -> questEntries q = [createdEntry q]) /\
  (forall q,
      map ev (questEntries q) = (orEmpty (events q) ++ [ev (createdEntry q)])%list /\
      ts (ev (createdEntry q)) = created q /\
      type (ev (createdEntry q)) = "quest-created" /\
      Forall (fun e => quest e = title q) (questEntries q) /\
      List.length (questEntries q) = (List.length (orEmpty (events q)) + 1)%nat) /\
  Permutation out (flat_map questEntries quests) /\
  StronglySorted newerFirst out /\
  (forall t, filter (stampedAt t) out
             = filter (stampedAt t) (flat_map questEntries quests)) /\
  (forall T, List.length (filter (taggedWith T) out) =
             list_sum (map (fun q => match events q with
                                     | Some E => (List.length E + 1)%nat
                                     | None => 1%nat
                                     end)
                           (filter (fun q => String.eqb (title q) T) quests))).
Proof.
  cbv zeta. unfold renderGlobalTimeline.
  split; [|split; [|split; [|split; [|split; [|split]]]]].
  - intros q E HE. unfold questEntries. rewrite HE. simpl.
    split; [reflexivity|split].
    + rewrite map_app, map_map. simpl. now rewrite map_id.
    + now rewrite length_app, length_map.
  - intros q HE. unfold questEntries. now rewrite HE.
  - intros q. split; [|split; [|split; [|split]]]; try reflexivity.
    + unfold questEntries. rewrite map_app, map_map. simpl.
      now rewrite map_id.
    + apply questEntries_tag.
    + apply questEntries_length.
  - apply sortBy_perm.
  - apply sortBy_sorted.
  - intros t. apply sortBy_stable.
  - intros T. rewrite filter_length_sortBy, tagged_count.
    f_equal. apply map_ext. intros q.
    unfold orEmpty. destruct (events q); reflexivity.
Qed.

End TimelineFacts.

Section TimelineExample.
Import Quests Samples.

(** The vault's first event and its creation entry share a stamp and stay
    in the order pushed (event first); the lighthouse, without an [events]
    array, contributes its creation entry alone. *)
Example timeline_of_questLog :
  map (fun e => (ev_id (ev e), ts (ev e), quest e))
      (renderGlobalTimeline [vault; lighthouse]) =
  [("q_e2", 250, "The Whispering Vault");
   ("c_q_light", 200, "Old Lighthouse Mystery");
   ("q_e1", 100, "The Whispering Vault");
   ("c_q_vault", 100, "The Whispering Vault")].
Proof. reflexivity. Qed.

End TimelineExample.

(** ** inventory.js: quest status *)

Section QuestStatus.
Import Quests Samples.

Lemma moved_refl q : moved q q.
Proof. split; [reflexivity|now left]. Qed.

Lemma moved_trans q1 q2 q3 : moved q1 q2 -> moved q2 q3 -> moved q1 q3.
Proof.
  intros [I1 S1] [I2 S2]. split; [congruence|].
  destruct S2 as [E|[E|E]]; rewrite E; auto.
Qed.

Lemma moved_settled q q' : moved q q' -> settled q q'.
Proof.
  intros [_ S] Hq. destruct S as [E|[E|E]]; rewrite E;
    [exact Hq|discriminate|discriminate].
Qed.

Lemma Forall2_moved_refl qs : Forall2 moved qs qs.
Proof. induction qs; constructor; auto using moved_refl. Qed.

Lemma mutateFirst_moved sel f qs :
  (forall q, moved q (f q)) -> Forall2 moved qs (mutateFirst sel f qs).
Proof.
  intros Hf. induction qs as [|x qs IH]; simpl; [constructor|].
  destruct (String.eqb (id x) sel); constructor;
    auto using moved_refl, Forall2_moved_refl.
Qed.

Lemma selectQuest_quests i st : quests (selectQuest i st) = quests st.
Proof. unfold selectQuest. now destruct (findQuest i (quests st)). Qed.

(** One listener: new quests go in front, the others stay in place and
    keep their status or take completed or failed. *)
Lemma step_moved o st :
  exists fresh olds,
    quests (after (step o st) st) = (fresh ++ olds)%list /\
    Forall2 moved (quests st) olds.
Proof.
  assert (Hsame : exists fresh olds,
             quests st = (fresh ++ olds)%list /\ Forall2 moved (quests st) olds).
  { exists [], (quests st). split; [reflexivity|apply Forall2_moved_refl]. }
  destruct o as [t d i now|t l ty i now|v| | |i]; simpl.
  - unfold btnNew_click. destruct (negb (truthy t)); simpl; [exact Hsame|].
    rewrite selectQuest_quests. simpl.
    eexists [_], (quests st). split; [reflexivity|apply Forall2_moved_refl].
  - unfold eventForm_submit.
    destruct (negb (truthy (selectedQuestId st))); simpl; [exact Hsame|].
    destruct (selectedQuestId st) as [sel|]; simpl; [|exact Hsame].
    destruct (findQuest sel (quests st)) as [q|]; simpl; [|exact Hsame].
    destruct (String.eqb (trim t) ""); simpl; [exact Hsame|].
    destruct (events q) as [es|]; simpl; [|exact Hsame].
    eexists [], _. split; [reflexivity|].
    apply mutateFirst_moved. intros x. split; [reflexivity|left; reflexivity].
  - unfold assignChar_change.
    destruct (negb (truthy (selectedQuestId st))); simpl; [exact Hsame|].
    destruct (selectedQuestId st) as [sel|]; simpl; [|exact Hsame].
    destruct (findQuest sel (quests st)) as [q|]; simpl; [|exact Hsame].
    rewrite selectQuest_quests. simpl.
    exists [], (mutateFirst sel (set_assigned v) (quests st)).
    split; [reflexivity|]. apply mutateFirst_moved.
    intros x. split; [reflexivity|left; reflexivity].
  - unfold btnComplete_click, setStatus_click.
    destruct (negb (truthy (selectedQuestId st))); simpl; [exact Hsame|].
    destruct (selectedQuestId st) as [sel|]; simpl; [|exact Hsame].
    destruct (findQuest sel (quests st)) as [q|]; simpl; [|exact Hsame].
    rewrite selectQuest_quests. simpl.
    exists [], (mutateFirst sel (set_status completed) (quests st)).
    split; [reflexivity|]. apply mutateFirst_moved.
    intros x. split; [reflexivity|]. right; left; reflexivity.
  - unfold btnAbandon_click, setStatus_click.
    destruct (negb (truthy (selectedQuestId st))); simpl; [exact Hsame|].
    destruct (selectedQuestId st) as [sel|]; simpl; [|exact Hsame].
    destruct (findQuest sel (quests st)) as [q|]; simpl; [|exact Hsame].
    rewrite selectQuest_quests. simpl.
    exists [], (mutateFirst sel (set_status failed) (quests st)).
    split; [reflexivity|]. apply mutateFirst_moved.
    intros x. split; [reflexivity|]. right; right; reflexivity.
  - rewrite selectQuest_quests. exact Hsame.
Qed.

Lemma Forall2_moved_trans l1 : forall l2 l3,
  Forall2 moved l1 l2 -> Forall2 moved l2 l3 -> Forall2 moved l1 l3.
Proof.
  induction l1 as [|a l1 IH]; intros l2 l3 H12 H23;
    inversion H12; subst; inversion H23; subst; constructor;
    eauto using moved_trans.
Qed.

Lemma run_moved ops : forall st,
  exists fresh olds,
    quests (run ops st) = (fresh ++ olds)%list /\
    Forall2 moved (quests st) olds.
Proof.
  induction ops as [|o ops IH]; intros st.
  - exists [], (quests st). split; [reflexivity|apply Forall2_moved_refl].
  - simpl. change (fold_left _ ops ?s) with (run ops s).
    destruct (step_moved o st) as (f1 & o1 & E1 & M1).
    destruct (IH (after (step o st) st)) as (f2 & o2 & E2 & M2).
    rewrite E1 in M2.
    apply Forall2_app_inv_l in M2.
    destruct M2 as (o2a & o2b & Ma & Mb & ->).
    exists (f2 ++ o2a)%list, o2b. split.
    + rewrite E2. now rewrite app_assoc.
    + eapply Forall2_moved_trans; eassumption.
Qed.

(** Complete and Abandon write the status of the quest found, whatever it
    was. *)
Lemma setStatus_overwrites s sel st q :
  selectedQuestId st = Some sel -> sel <> "" ->
  findQuest sel (quests st) = Some q ->
  exists st',
    setStatus_click s st = Ok st' /\
    findQuest sel (quests st') = Some (set_status s q).
Proof.
  intros Hsel Hne Hq. unfold setStatus_click.
  rewrite Hsel, Hq. simpl.
  apply String.eqb_neq in Hne. rewrite Hne. simpl.
  eexists. split; [reflexivity|].
  rewrite selectQuest_quests. simpl.
  revert Hq. unfold findQuest.
  induction (quests st) as [|x qs IH]; simpl; [discriminate|].
  destruct (String.eqb (id x) sel) eqn:E; simpl.
  - intros [= ->]. now rewrite E.
  - rewrite E. exact IH.
Qed.

(** C6, as the code has it.  Whatever listeners run, in whatever order,
    the quests that were there are still there, behind those created
    since; each keeps its status or takes completed or failed, so a quest
    that has left active (completed or failed) is never active again. *)
Theorem C6_status_never_returns_to_active (ops : list Op) (st : State) :
  exists fresh olds,
    quests (run ops st) = (fresh ++ olds)%list /\
    Forall2 (fun q q' => moved q q' /\ settled q q') (quests st) olds.
Proof.
  destruct (run_moved ops st) as (fresh & olds & E & M).
  exists fresh, olds. split; [exact E|].
  eapply Forall2_impl; [|exact M].
  intros q q' H. split; [exact H|now apply moved_settled].
Qed.

(** C6 as stated fails: the vault quest is completed, and a click on
    Abandon makes it failed. *)
Lemma C6_completed_quest_can_fail :
  map status (quests questLog) = [completed; active] /\
  map status (quests (run [Abandon] questLog)) = [failed; active].
Proof. split; reflexivity. Qed.

(** And back: Complete on the failed quest makes it completed again. *)
Example failed_quest_can_complete :
  map status (quests (run [Abandon; Complete] questLog)) = [completed; active].
Proof. reflexivity. Qed.

End QuestStatus.

(** ** The transcription controls *)

Section TranscriptionFacts.
Import Dashboard Samples.

(** C2, as the code has it.  Start takes idle and paused to recording and
    logs "Transcription started." in both cases; Pause takes recording to
    paused ("paused") and paused to recording ("resumed"); Stop takes
    recording and paused to idle ("stopped"); start from recording and
    pause or stop from idle leave the page as it was.  Exactly one entry is
    logged by a transition that happens, and nothing else on the page
    changes. *)
Theorem C2_transition_table (s : Script) (now : string) (a : Control)
    (pg : Page) :
  let pg' := transition s now a pg in
  let says := systemEntry now "System" in
  timelineRail pg' = timelineRail pg /\
  questList pg' = questList pg /\
  toastRoot pg' = toastRoot pg /\
  match txState pg, a with
  | idle, start | paused, start =>
      txState pg' = recording /\
      logged (says "<em>Transcription started.</em>") (log pg) (log pg')
  | recording, pauseResume =>
      txState pg' = paused /\
      log pg' = (log pg ++ [says "<em>Transcription paused.</em>"])%list
  | paused, pauseResume =>
      txState pg' = recording /\
      log pg' = (log pg ++ [says "<em>Transcription resumed.</em>"])%list
  | recording, stop | paused, stop =>
      txState pg' = idle /\
      log pg' = (log pg ++ [says "<em>Transcription stopped.</em>"])%list
  | recording, start | idle, pauseResume | idle, stop => pg' = pg
  end.
Proof.
  cbv zeta.
  destruct a; simpl;
    unfold btnStart_click, btnPause_click, btnStop_click;
    destruct (txState pg) eqn:E; rewrite ?E;
    try destruct s as [|[|]]; simpl;
    repeat (split; try reflexivity);
    try (apply logged_last; reflexivity);
    try (apply logged_first; reflexivity).
Qed.

(** C2 as stated fails at (paused, start): the entry logged says
    "Transcription started.", not "resumed". *)
Lemma C2_start_from_paused_logs_started :
  txState (transition MainJs "19:30" start pausedPage) = recording /\
  log (transition MainJs "19:30" start pausedPage) =
    [systemEntry "19:30" "System" "<em>Transcription started.</em>"] /\
  ~ logged (systemEntry "19:30" "System" "<em>Transcription resumed.</em>")
      (log pausedPage) (log (transition MainJs "19:30" start pausedPage)).
Proof.
  split; [reflexivity|]. split; [reflexivity|].
  intros [H|H]; discriminate H.
Qed.

End TranscriptionFacts.

(** ** The message router *)

Section RouterFacts.
Import Dashboard Samples.

Lemma keepTwo_firstn fuel : forall l,
  (List.length l <= fuel + 2)%nat -> keepTwo fuel l = firstn 2 l.
Proof.
  induction fuel as [|fuel IH]; intros l Hl; cbn [keepTwo].
  - symmetry. apply firstn_all2. lia.
  - destruct (Nat.ltb_spec 2 (List.length l)) as [Hlt|Hge].
    + rewrite IH.
      * rewrite removelast_firstn_len, firstn_firstn.
        f_equal. lia.
      * rewrite removelast_firstn_len, length_firstn. lia.
    + symmetry. apply firstn_all2. lia.
Qed.

Lemma addQuest_questList title update pg :
  questList (addQuest title update pg) =
  firstn 2 (questDiv title update :: questList pg).
Proof.
  unfold addQuest. cbn [questList set_questList].
  apply keepTwo_firstn. lia.
Qed.

(** What the router does with a quest update, field by field. *)
Lemma quest_update_routed v now msg pg :
  isQuestUpdate msg ->
  exists pg',
    ws_onmessage v now (JsonText msg) pg = Ok pg' /\
    txState pg' = txState pg /\
    toastRoot pg' = toastRoot pg /\
    log pg' = log (addLogMessage v
                     (questUpdateEntry now (field msg "quest_name")
                        (field msg "content")) pg) /\
    timelineRail pg' =
      timelineRail (addTimelineEvent now "Quest" (field msg "quest_name")
                      "📜 Quest Updated" "" pg) /\
    questList pg' =
      firstn 2 (questDiv (field msg "quest_name") (field msg "content")
                :: questList pg).
Proof.
  unfold isQuestUpdate, ws_onmessage, field. intros H.
  destruct msg; simpl in *; try discriminate.
  injection H as H. rewrite H. simpl.
  eexists. split; [reflexivity|].
  rewrite addQuest_questList.
  unfold addTimelineEvent.
  destruct v; simpl; destruct (timelineRail pg); simpl; repeat split.
Qed.

Lemma deliver_questList v pg m :
  isQuestUpdate (snd m) ->
  questList (deliver v pg m) =
  firstn 2 (questDiv (field (snd m) "quest_name") (field (snd m) "content")
            :: questList pg).
Proof.
  intros H. unfold deliver.
  destruct (quest_update_routed v (fst m) (snd m) pg H) as (pg' & E & _ & _ & _ & _ & Q).
  now rewrite E.
Qed.

Lemma feed_two_quests v msgs : forall pg,
  Forall (fun m => isQuestUpdate (snd m)) msgs ->
  (2 <= List.length msgs)%nat ->
  List.length (questList (feed v msgs pg)) = 2%nat.
Proof.
  unfold feed.
  induction msgs as [|m msgs IH]; intros pg Hall Hlen; simpl in *; [lia|].
  inversion Hall as [|? ? Hm Hrest]; subst.
  destruct msgs as [|m2 msgs2].
  - simpl in Hlen. lia.
  - destruct msgs2 as [|m3 msgs3].
    + simpl. inversion Hrest as [|? ? Hm2 _]; subst.
      rewrite deliver_questList by assumption.
      rewrite deliver_questList by assumption.
      destruct (questList pg); reflexivity.
    + apply IH; [assumption|simpl; lia].
Qed.




(** Three quest updates in a row, on the page as the session starts: the
    list shows the last two, newest first, and the log and the timeline
    have one entry for each message. *)
Example three_quest_updates :
  let pg := feed PrependingLog
              [("19:01", questUpdate "X" "Y"); ("19:02", questUpdate "X" "Z");
               ("19:03", questUpdate "W" "Y")] freshPage in
  map q_title (questList pg) = ["W"; "X"] /\
  map q_update (questList pg) = ["Y"; "Z"] /\
  map html (log pg) = ["<em>W: Y</em>"; "<em>X: Z</em>"; "<em>X: Y</em>"] /\
  option_map (map badge) (timelineRail pg) = Some ["Quest"; "Quest"; "Quest"].
Proof. cbv zeta. repeat split. Qed.

(** C4, at the input where the log scripts depart from it.  On a payload
    that is not JSON the router of either log script writes nothing, but
    [JSON.parse] is called outside any [try]: the SyntaxError leaves the
    handler.  The handler of main_live.js, which parses the same payload
    inside [try { ... } catch {}], returns with the page untouched. *)
Theorem C4_parse_failure_escapes_router (v : Variant) (s : Script)
    (now data : string) (pg : Page) :
  ws_onmessage v now (NotJson data) pg = Throw SyntaxError /\
  uiWs_onmessage s now (NotJson data) pg = pg.
Proof. split; reflexivity. Qed.

(** C10. A parsed message whose heading is missing or is not a string
    makes the router throw a TypeError (at [msg.heading.startsWith]); one
    whose heading is a string no branch knows is ignored: the router
    returns and the page is as it was. *)
Theorem C10_router_needs_string_heading (v : Variant) (now : string)
    (msg : Json) (pg : Page) (heading : JsVal) (h : string) :
  getProp msg "heading" = Ok heading ->
  (isString heading = false ->
   ws_onmessage v now (JsonText msg) pg = Throw TypeError) /\
  (heading = Some (JStr h) ->
   h <> "Quest Update" -> h <> "World State Update" ->
   prefix "Character Action" h = false ->
   prefix "Character Outcome" h = false ->
   ws_onmessage v now (JsonText msg) pg = Ok pg).
Proof.
  intros Hh. unfold ws_onmessage.
  destruct msg; simpl in *; try discriminate;
    injection Hh as <-; split.
  all: try (intros _; reflexivity).
  all: try (intros ?; discriminate).
  - intros Hs.
    destruct (assoc "heading" fields) as [[| | |s0| |]|]; simpl in *;
      try reflexivity; discriminate.
  - intros -> H1 H2 H3 H4. simpl.
    apply String.eqb_neq in H1, H2. rewrite H1, H2, H3, H4. reflexivity.
Qed.

Lemma C10_router_witness :
  (getProp summaryMessage "heading" = Ok None /\
   isString None = false /\
   ws_onmessage PrependingLog "19:05" (JsonText summaryMessage) freshPage
     = Throw TypeError) /\
  (getProp chatter "heading" = Ok (Some (JStr "Table Talk")) /\
   ws_onmessage PrependingLog "19:05" (JsonText chatter) freshPage
     = Ok freshPage).
Proof.
  split.
  - split; [reflexivity|]. split; [reflexivity|].
    apply (C10_router_needs_string_heading PrependingLog "19:05"
             summaryMessage freshPage None ""); reflexivity.
  - split; [reflexivity|].
    apply (C10_router_needs_string_heading PrependingLog "19:05"
             chatter freshPage (Some (JStr "Table Talk")) "Table Talk");
      try reflexivity; discriminate.
Defined.

(** The character branch: a player entry with the name capitalised and
    the content lowered at its first letter; a narrator entry with its
    location; a TypeError when the heading has no colon. *)
Example character_messages :
  option_map (map html)
    (match ws_onmessage AppendingLog "19:10" (JsonText kyraActs) freshPage with
     | Ok pg => Some (log pg)
     | Throw _ => None
     end) = Some ["Kyra searches the crates.<br>Finds a key."] /\
  option_map (map location)
    (match ws_onmessage AppendingLog "19:11" (JsonText narratorSpeaks) freshPage with
     | Ok pg => Some (log pg)
     | Throw _ => None
     end) = Some [Some "📍 Greywatch"] /\
  ws_onmessage AppendingLog "19:12" (JsonText headingWithoutColon) freshPage
    = Throw TypeError.
Proof. repeat split. Qed.

(** The handler of main_live.js never reports an error: on the summary
    message it logs the summary, on [null] it does nothing. *)
Example live_client_messages :
  map html (log (uiWs_onmessage (LogScript PrependingLog) "19:05"
                   (JsonText summaryMessage) freshPage))
    = ["The party reached Greywatch."] /\
  uiWs_onmessage (LogScript PrependingLog) "19:05" (JsonText JNull) freshPage
    = freshPage.
Proof. repeat split. Qed.

End RouterFacts.

(** * Further properties *)

(** ** characters.js: proficiency, dice and rolls *)

Section RollFacts.
Import Characters Sheet Samples.

Lemma calcProf_range l : 2 <= calcProf l <= 6.
Proof.
  unfold calcProf.
  destruct (17 <=? l), (13 <=? l), (9 <=? l), (5 <=? l); lia.
Qed.

Lemma calcProf_mono l l' : l <= l' -> calcProf l <= calcProf l'.
Proof.
  intros H. unfold calcProf.
  destruct (Z.leb_spec 17 l), (Z.leb_spec 13 l), (Z.leb_spec 9 l),
           (Z.leb_spec 5 l), (Z.leb_spec 17 l'), (Z.leb_spec 13 l'),
           (Z.leb_spec 9 l'), (Z.leb_spec 5 l'); lia.
Qed.

(** X1. The proficiency bonus never leaves 2..6, never drops as the level
    rises, and on levels 1 to 20 it is [2 + floor((level - 1) / 4)]. *)
Theorem calcProf_progression (l l' : Z) :
  l <= l' ->
  2 <= calcProf l <= calcProf l' /\ calcProf l' <= 6 /\
  (1 <= l <= 20 -> calcProf l = 2 + (l - 1) / 4).
Proof.
  intros H. split; [|split].
  - split; [apply calcProf_range|now apply calcProf_mono].
  - apply calcProf_range.
  - intros Hl. unfold calcProf.
    destruct (Z.leb_spec 17 l), (Z.leb_spec 13 l), (Z.leb_spec 9 l),
             (Z.leb_spec 5 l); try lia;
      Z.div_mod_to_equations; lia.
Qed.

Lemma calcProf_progression_witness :
  9 <= 13 /\ calcProf 9 = 4 /\ calcProf 13 = 5.
Proof.
  assert (H : 9 <= 13) by lia.
  split; [exact H|].
  destruct (calcProf_progression 9 13 H) as (_ & _ & F).
  split; [apply F; lia|reflexivity].
Defined.

(** X2. A die shows one of its faces: for a whole number of sides (up to
    [2 ^ 53]) and a draw of [Math.random()], the rounded product
    [Math.random() * sides] stays below [sides], so [rollDie] is between 1
    and [sides]. *)
Theorem rollDie_shows_a_face (sides : Z) (u : Q) :
  unitDraw u -> 1 <= sides <= 2 ^ 53 ->
  1 <= rollDie sides u <= sides.
Proof. apply rollDie_range. Qed.

(** The double nearest to 0.95 lies below it; its product with 20 rounds
    to 19 and the d20 shows 20. *)
Lemma rollDie_shows_a_face_witness :
  unitDraw (8556839292003942 # 9007199254740992) /\ 1 <= 20 <= 2 ^ 53 /\
  1 <= rollDie 20 (8556839292003942 # 9007199254740992) <= 20 /\
  rollDie 20 (8556839292003942 # 9007199254740992) = 20.
Proof.
  assert (Hu : unitDraw (8556839292003942 # 9007199254740992)).
  { split; vm_compute; discriminate. }
  assert (Hs : 1 <= 20 <= 2 ^ 53) by (split; vm_compute; discriminate).
  split; [exact Hu|]. split; [exact Hs|].
  split; [|vm_compute; reflexivity].
  exact (rollDie_shows_a_face 20 (8556839292003942 # 9007199254740992) Hu Hs).
Defined.

(** X3. The roll button: disadvantage never beats the straight roll and
    the straight roll never beats advantage, on the same two draws; a saving
    throw totals what the ability check does (its proficiency term is
    [prof * 0]); an attack adds the proficiency bonus. *)
Theorem roll_totals (type adv : string) (ability : Ability) (u1 u2 : Q)
    (c : Character) :
  adv <> "adv" -> adv <> "dis" -> type <> "save" -> type <> "attack" ->
  total (roll type ability "dis" u1 u2 c) <= total (roll type ability adv u1 u2 c) /\
  total (roll type ability adv u1 u2 c) <= total (roll type ability "adv" u1 u2 c) /\
  total (roll "save" ability adv u1 u2 c) = total (roll type ability adv u1 u2 c) /\
  total (roll "attack" ability adv u1 u2 c) =
    total (roll type ability adv u1 u2 c) + calcProf (level c) /\
  total (roll type ability adv u1 u2 c) =
    rollD20 u1 + abilityMod (js_or (score ability c) 10).
Proof.
  intros Ha Hd Hs Hk. unfold roll. cbn [total].
  apply String.eqb_neq in Ha, Hd, Hs, Hk. rewrite Ha, Hd, Hs, Hk.
  cbn. repeat split; lia.
Qed.

Lemma roll_totals_witness :
  total (roll "check" DEX "dis" (1 # 10) (1 # 2) veteran) = 4 /\
  total (roll "check" DEX "none" (1 # 10) (1 # 2) veteran) = 4 /\
  total (roll "check" DEX "adv" (1 # 10) (1 # 2) veteran) = 12 /\
  total (roll "save" DEX "none" (1 # 10) (1 # 2) veteran)
    = total (roll "check" DEX "none" (1 # 10) (1 # 2) veteran).
Proof.
  destruct (roll_totals "check" "none" DEX (1 # 10) (1 # 2) veteran)
    as (_ & _ & E & _); try discriminate.
  split; [reflexivity|]. split; [reflexivity|]. split; [reflexivity|exact E].
Defined.

End RollFacts.

(** ** characters.js: hit points and hit dice across operations *)

Section RestFacts.
Import Characters Sheet Samples.



Lemma hitDice_ok_shortRest spent rng c :
  1 <= level c -> hitDice_ok c -> hitDice_ok (shortRest spent rng c).
Proof.
  unfold hitDice_ok, shortRest, maxPossible, js_or. intros Hl H.
  destruct spent as [n|]; [|exact H].
  destruct (Z.leb_spec n 0); [exact H|]. cbn.
  assert (level c / 2 <= level c) by (Z.div_mod_to_equations; lia).
  destruct (Z.eqb_spec (hitDice c) 0); lia.
Qed.

Lemma ceil_half_bounds L :
  1 <= L -> 1 <= ceil_div L 2 <= L /\ L <= 2 * ceil_div L 2.
Proof. unfold ceil_div. intros H. Z.div_mod_to_equations. lia. Qed.

Lemma hitDice_ok_longRest c :
  1 <= level c -> hitDice_ok c -> hitDice_ok (longRest c).
Proof.
  unfold hitDice_ok, longRest, js_or. intros Hl H. cbn.
  destruct (Z.eqb_spec (level c) 0); [lia|].
  pose proof (ceil_half_bounds (level c) Hl).
  destruct (Z.eqb_spec (hitDice c) 0); lia.
Qed.

(** X5. On a character of level 1 or more whose hit dice are between 0 and
    the level, no rest, damage or healing takes them out of that range: a
    short rest never spends a die the character does not have, and a long
    rest never gives back more than the level. *)
Theorem hit_dice_stay_in_range (c : Character) (spent : option Z)
    (rng : nat -> Q) (amt : Z) (u : Q) :
  1 <= level c -> hitDice_ok c ->
  hitDice_ok (shortRest spent rng c) /\
  hitDice_ok (longRest c) /\
  hitDice_ok (damage amt u c) /\
  hitDice_ok (heal amt c).
Proof.
  intros Hl H. split; [|split; [|split]].
  - now apply hitDice_ok_shortRest.
  - now apply hitDice_ok_longRest.
  - unfold hitDice_ok, damage in *.
    destruct (truthy _); [destruct (negb _)|]; cbn; exact H.
  - exact H.
Qed.

Lemma hit_dice_stay_in_range_witness :
  1 <= level veteran /\ hitDice_ok veteran /\
  hitDice_ok (shortRest (Some 5) half veteran) /\
  hitDice_ok (longRest veteran).
Proof.
  assert (Hl : 1 <= level veteran) by (cbn; lia).
  assert (H : hitDice_ok veteran) by (unfold hitDice_ok; cbn; lia).
  split; [exact Hl|]. split; [exact H|].
  destruct (hit_dice_stay_in_range veteran (Some 5) half 0 0%Q Hl H)
    as (A & B & _).
  split; [exact A|exact B].
Defined.

(** X6. Two long rests in a row give back every hit die: a long rest
    recovers half the level, rounded up, and twice that covers the level. *)
Theorem two_long_rests_restore_hit_dice (c : Character) :
  1 <= level c -> 0 <= hitDice c ->
  hitDice (longRest (longRest c)) = level c /\
  hp (longRest (longRest c)) = maxHp c.
Proof.
  intros Hl Hh. unfold longRest, js_or. cbn.
  destruct (Z.eqb_spec (level c) 0); [lia|].
  pose proof (ceil_half_bounds (level c) Hl) as Hc.
  split; [|reflexivity].
  destruct (Z.eqb_spec (hitDice c) 0) as [E|E];
    destruct (Z.eqb_spec (Z.min (level c) (0 + ceil_div (level c) 2)) 0);
    destruct (Z.eqb_spec (Z.min (level c) (hitDice c + ceil_div (level c) 2)) 0);
    lia.
Qed.

Lemma two_long_rests_witness :
  1 <= level thorneSpent /\ 0 <= hitDice thorneSpent /\
  hitDice (longRest thorneSpent) = 1 /\
  hitDice (longRest (longRest thorneSpent)) = 2.
Proof.
  assert (Hl : 1 <= level thorneSpent) by (cbn; lia).
  assert (Hh : 0 <= hitDice thorneSpent) by (cbn; lia).
  split; [exact Hl|]. split; [exact Hh|]. split; [reflexivity|].
  destruct (two_long_rests_restore_hit_dice thorneSpent Hl Hh) as (E & _).
  rewrite E. reflexivity.
Defined.

End RestFacts.

(** ** characters.js: the roster and the selection *)

Section RosterFacts.
Import Characters Sheet Samples.

Lemma findChar_app sel l1 l2 c :
  findChar sel l2 = Some c -> exists c', findChar sel (l1 ++ l2) = Some c'.
Proof.
  unfold findChar. intros H. induction l1 as [|x l1 IH]; simpl; [eauto|].
  destruct (String.eqb (id x) sel); eauto.
Qed.

Lemma findChar_app_last sel l c :
  id c = sel -> exists c', findChar sel (l ++ [c]) = Some c'.
Proof.
  unfold findChar. intros H. induction l as [|x l IH]; simpl.
  - rewrite H, String.eqb_refl. eauto.
  - destruct (String.eqb (id x) sel); eauto.
Qed.

Lemma findChar_mutateFirst sel sel' f cs c :
  (forall x, id (f x) = id x) ->
  findChar sel cs = Some c ->
  exists c', findChar sel (mutateFirst sel' f cs) = Some c'.
Proof.
  unfold findChar. intros Hf. induction cs as [|x cs IH]; simpl; [discriminate|].
  destruct (String.eqb (id x) sel') eqn:E'; simpl.
  - rewrite Hf. destruct (String.eqb (id x) sel); eauto.
  - destruct (String.eqb (id x) sel); eauto.
Qed.

Lemma truthy_Some s : truthy (Some s) = true -> s <> "".
Proof.
  simpl. destruct (String.eqb_spec s ""); [discriminate|auto].
Qed.

Lemma onSelected_ok f st sel :
  (forall x, id (f x) = id x) -> selection_ok st ->
  selectedCharId st = Some sel -> truthy (Some sel) = true ->
  exists st', onSelected f sel st = Ok st' /\ selection_ok st'.
Proof.
  intros Hf Hok Hsel Ht. unfold onSelected.
  destruct (Hok sel Hsel (truthy_Some _ Ht)) as (c & Hc). rewrite Hc.
  eexists. split; [reflexivity|].
  intros s Hs Hne. simpl in *.
  destruct (Hok s Hs Hne) as (c0 & Hc0).
  eapply findChar_mutateFirst; eassumption.
Qed.

Lemma damage_id d u c : id (damage d u c) = id c.
Proof.
  unfold damage. destruct (truthy _); [destruct (negb _)|]; reflexivity.
Qed.

Lemma shortRest_id s rng c : id (shortRest s rng c) = id c.
Proof.
  unfold shortRest. destruct s as [n|]; [|reflexivity].
  destruct (n <=? 0); reflexivity.
Qed.

Lemma conCheck_id d u c : id (conCheck d u c) = id c.
Proof.
  unfold conCheck. destruct (negb _); [reflexivity|].
  destruct (_ <=? _); reflexivity.
Qed.

Lemma handle_ok e st :
  selection_ok st -> exists st', handle e st = Ok st' /\ selection_ok st'.
Proof.
  intros Hok.
  assert (Hsame : exists st', Ok st = Ok st' /\ selection_ok st') by eauto.
  destruct e as [i|a|input u|type ability adv u1 u2|n cl lvl mx cn uid
                 |n cl lvl mx|confirmed|data uids]; simpl.
  - unfold selectChar. destruct (findChar i (characters st)) eqn:E; [|exact Hsame].
    eexists. split; [reflexivity|]. intros s [= <-] _. simpl. eauto.
  - destruct a as [input u|input|input rng|]; simpl;
      unfold btnDamage_click, btnHeal_click, btnShortRest_click, btnLongRest_click;
      destruct (truthy (selectedCharId st)) eqn:Ht; simpl; try exact Hsame;
      destruct (selectedCharId st) as [sel|] eqn:Hsel; try discriminate;
      try destruct input as [d|]; try exact Hsame;
      apply onSelected_ok; auto using damage_id, shortRest_id.
  - unfold btnConCheck_click.
    destruct (truthy (selectedCharId st)) eqn:Ht; simpl; try exact Hsame.
    destruct (selectedCharId st) as [sel|] eqn:Hsel; try discriminate.
    destruct input as [d|]; try exact Hsame.
    destruct (d <=? 0); try exact Hsame.
    apply onSelected_ok; auto using conCheck_id.
  - unfold btnRoll_click.
    destruct (truthy (selectedCharId st)) eqn:Ht; simpl; try exact Hsame.
    destruct (selectedCharId st) as [sel|] eqn:Hsel; try discriminate.
    destruct (Hok sel Hsel (truthy_Some _ Ht)) as (c & Hc). rewrite Hc.
    exact Hsame.
  - unfold btnNewChar_click. destruct n as [n|]; [|exact Hsame].
    destruct (String.eqb n ""); [exact Hsame|].
    eexists. split; [reflexivity|].
    unfold selectChar. cbn [characters id newChar].
    destruct (findChar_app_last uid (characters st)
                (newChar uid n cl lvl mx cn) eq_refl) as (c' & Hc').
    rewrite Hc'. intros s [= <-] _. cbn [characters]. eauto.
  - unfold btnEditChar_click.
    destruct (truthy (selectedCharId st)) eqn:Ht; simpl; try exact Hsame.
    destruct (selectedCharId st) as [sel|] eqn:Hsel; try discriminate.
    destruct (Hok sel Hsel (truthy_Some _ Ht)) as (c & Hc). rewrite Hc.
    destruct n as [n|]; [|exact Hsame].
    destruct (String.eqb n ""); [exact Hsame|].
    apply onSelected_ok; auto.
  - unfold btnDeleteChar_click.
    destruct (negb (truthy (selectedCharId st))); [exact Hsame|].
    destruct (negb confirmed); [exact Hsame|].
    destruct (selectedCharId st) as [sel|]; [|exact Hsame].
    eexists. split; [reflexivity|]. intros s Hs. discriminate Hs.
  - unfold importChars. destruct data as [d|]; [|exact Hsame].
    eexists. split; [reflexivity|]. intros s Hs Hne. simpl in *.
    destruct (Hok s Hs Hne) as (c & Hc).
    eapply findChar_app; eassumption.
Qed.



End RosterFacts.

(** ** characters.js: creating, editing, deleting and importing *)

Section LifecycleFacts.
Import Characters Sheet Samples.

Lemma numberOr_nonzero typed d : d <> 0 -> numberOr typed d <> 0.
Proof.
  unfold numberOr, js_or. intros Hd.
  destruct typed as [v|]; [|exact Hd].
  destruct (Z.eqb_spec v 0); assumption.
Qed.



(** X9. An edit never leaves the hit points above the maximum: lowering
    the maximum under the current hit points pulls them down to it, raising
    it leaves them alone.  With a maximum that is not negative the hit
    points stay in range; the id is never edited. *)
Theorem edit_clamps_hit_points (n : string) (cl : option string)
    (lvl mx : option Z) (c : Character) :
  let e := editChar n cl lvl mx c in
  id e = id c /\
  hp e <= maxHp e /\
  (hp c <= maxHp e -> hp e = hp c) /\
  (maxHp e < hp c -> hp e = maxHp e) /\
  (hp_ok c -> 0 <= maxHp e -> hp_ok e).
Proof.
  cbv zeta. unfold editChar, hp_ok. cbn.
  repeat (split; try reflexivity); intros; lia.
Qed.

(** X10. A confirmed delete removes every character that bears the
    selected id, leaves the others in their order and clears the selection;
    a delete that is not confirmed changes nothing. *)
Theorem delete_removes_selected (sel : string) (st : State) :
  selectedCharId st = Some sel -> sel <> "" ->
  let st' := btnDeleteChar_click true st in
  findChar sel (characters st') = None /\
  selectedCharId st' = None /\
  characters st' = filter (fun x => negb (String.eqb (id x) sel)) (characters st) /\
  btnDeleteChar_click false st = st.
Proof.
  intros Hsel Hne. cbv zeta. unfold btnDeleteChar_click.
  rewrite Hsel. simpl. apply String.eqb_neq in Hne. rewrite Hne. simpl.
  repeat split.
  unfold findChar. induction (characters st) as [|x cs IH]; simpl; [reflexivity|].
  destruct (String.eqb (id x) sel) eqn:E; simpl; [exact IH|].
  now rewrite E.
Qed.

Lemma delete_removes_selected_witness :
  selectedCharId roster = Some "c_vet" /\ "c_vet" <> "" /\
  map name (characters (btnDeleteChar_click true roster)) = ["Seren"; "Thorne"] /\
  findChar "c_vet" (characters (btnDeleteChar_click true roster)) = None.
Proof.
  assert (H1 : selectedCharId roster = Some "c_vet") by reflexivity.
  assert (H2 : "c_vet" <> "") by discriminate.
  split; [exact H1|]. split; [exact H2|]. split; [reflexivity|].
  apply (delete_removes_selected "c_vet" roster H1 H2).
Defined.

Lemma assignIds_spec uids data : forall k,
  (forall n, uids n <> "") ->
  Forall (fun c => id c <> "") (assignIds uids k data) /\
  List.length (assignIds uids k data) = List.length data /\
  Forall2 (fun c c' => (id c <> "" -> c' = c) /\ set_id (id c') c = c')
          data (assignIds uids k data).
Proof.
  intros k Hu. revert k.
  induction data as [|c data IH]; intros k; simpl.
  - repeat constructor.
  - destruct (String.eqb_spec (id c) "") as [E|E].
    + destruct (IH (S k)) as (A & B & C).
      split; [constructor; [apply Hu|exact A]|].
      split; [simpl; now rewrite B|].
      constructor; [|exact C]. split; [intros H; contradiction|reflexivity].
    + destruct (IH k) as (A & B & C).
      split; [constructor; assumption|].
      split; [simpl; now rewrite B|].
      constructor; [|exact C]. split; [reflexivity|now destruct c].
Qed.

(** X11. An import puts the characters of the file in front of the
    roster, which it keeps whole; every imported character that came
    without an id gets one, the others are taken as they are, and nothing
    but the id of a character is written. *)
Theorem import_assigns_ids (data : list Character) (uids : nat -> string)
    (st : State) :
  (forall n, uids n <> "") ->
  exists imported,
    characters (importChars (Some data) uids st)
      = (imported ++ characters st)%list /\
    List.length imported = List.length data /\
    Forall (fun c => id c <> "") imported /\
    Forall2 (fun c c' => (id c <> "" -> c' = c) /\ set_id (id c') c = c')
            data imported /\
    selectedCharId (importChars (Some data) uids st) = selectedCharId st.
Proof.
  intros Hu. exists (assignIds uids 0 data).
  destruct (assignIds_spec uids data 0 Hu) as (A & B & C).
  repeat split; assumption.
Qed.

Lemma import_assigns_ids_witness :
  map id (characters (importChars (Some [set_id "" seren; veteran])
                        (fun _ => "c_new") roster))
  = ["c_new"; "c_vet"; "c_seren"; "c_thorne"; "c_vet"].
Proof.
  destruct (import_assigns_ids [set_id "" seren; veteran] (fun _ => "c_new")
              roster) as (imported & E & _).
  - intros _. discriminate.
  - reflexivity.
Defined.

(** X12. The Cast / Stop button of a spell flips whether the character
    concentrates on that spell and never asks for a check: casting while
    concentrating on another spell replaces it, and two clicks in a row end
    on the spell only if the character was on it before. *)
Theorem spell_button_toggles (s : Spell) (c : Character) :
  concentratesOn (spellButton_click s c) (sp_name s)
    = negb (concentratesOn c (sp_name s)) /\
  (concentratesOn c (sp_name s) = false ->
   concentratingOn (spellButton_click s c) = Some (sp_name s)) /\
  concentratingOn (spellButton_click s (spellButton_click s c))
    = (if concentratesOn c (sp_name s) then Some (sp_name s) else None) /\
  hp (spellButton_click s c) = hp c.
Proof.
  unfold spellButton_click.
  destruct (concentratesOn c (sp_name s)) eqn:E; simpl;
    unfold concentratesOn; simpl; rewrite ?String.eqb_refl; simpl;
    repeat split; try reflexivity; intros; discriminate.
Qed.

(** X13. Removing a condition removes every copy of it and nothing else:
    the other conditions keep their order and their number. *)
Theorem remove_condition (cond : string) (c : Character) :
  ~ In cond (conditions (removeCondition cond c)) /\
  (forall x, x <> cond ->
     count_occ string_dec (conditions (removeCondition cond c)) x
       = count_occ string_dec (conditions c) x) /\
  conditions (removeCondition cond (removeCondition cond c))
    = conditions (removeCondition cond c).
Proof.
  unfold removeCondition. cbn [conditions set_conditions].
  split; [|split].
  - intros H. apply filter_In in H. destruct H as (_ & H).
    now rewrite String.eqb_refl in H.
  - intros x Hx. induction (conditions c) as [|y l IH]; simpl; [reflexivity|].
    destruct (String.eqb_spec y cond) as [->|Hy]; simpl.
    + destruct (string_dec cond x); [congruence|exact IH].
    + destruct (string_dec y x); now rewrite IH.
  - induction (conditions c) as [|y l IH]; simpl; [reflexivity|].
    destruct (String.eqb y cond) eqn:E; simpl; [exact IH|].
    now rewrite E, IH.
Qed.

End LifecycleFacts.

(** ** inventory.js: the quest lists and the timeline across operations *)

Section QuestPageFacts.
Import Quests QuestPage Samples.

Lemma insertBy_front x l :
  Forall (newerFirst x) l -> insertBy byTsDesc x l = x :: l.
Proof.
  intros H. destruct l as [|y l]; [reflexivity|]. simpl.
  inversion H as [|? ? Hy _]; subst. unfold newerFirst in Hy. unfold byTsDesc.
  destruct (Z.ltb_spec 0 (ts (ev y) - ts (ev x))); [lia|reflexivity].
Qed.

Lemma sortBy_sorted_id l :
  StronglySorted newerFirst l -> sortBy byTsDesc l = l.
Proof.
  induction 1 as [|x l Hl IH Hx]; simpl; [reflexivity|].
  rewrite IH. now apply insertBy_front.
Qed.

Lemma allEvents_length qs :
  List.length (allEvents qs) = (List.length qs + eventCount qs)%nat.
Proof.
  unfold allEvents, eventCount. induction qs as [|q qs IH]; simpl; [reflexivity|].
  rewrite length_app, IH, questEntries_length. lia.
Qed.

Lemma timeline_length qs :
  List.length (renderGlobalTimeline qs)
  = (List.length qs + eventCount qs)%nat.
Proof.
  unfold renderGlobalTimeline.
  rewrite (Permutation_length (sortBy_perm byTsDesc (allEvents qs))).
  apply allEvents_length.
Qed.

(** X14. Rendering is stable under a second sort: sorting the rendered
    timeline again gives the same sequence.  The timeline has one entry for
    each quest and one for each event, so it is empty exactly when there is no
    quest. *)
Theorem timeline_resort_and_size (qs : list Quest) :
  sortBy byTsDesc (renderGlobalTimeline qs) = renderGlobalTimeline qs /\
  List.length (renderGlobalTimeline qs) = (List.length qs + eventCount qs)%nat /\
  (renderGlobalTimeline qs = [] <-> qs = []).
Proof.
  split; [|split].
  - apply sortBy_sorted_id. apply sortBy_sorted.
  - apply timeline_length.
  - split.
    + intros H. pose proof (timeline_length qs) as L. rewrite H in L.
      destruct qs; [reflexivity|discriminate L].
    + intros ->. reflexivity.
Qed.

Lemma mutateFirst_length sel f qs :
  List.length (mutateFirst sel f qs) = List.length qs.
Proof.
  induction qs as [|x qs IH]; simpl; [reflexivity|].
  destruct (String.eqb (id x) sel); simpl; [reflexivity|now rewrite IH].
Qed.

Lemma eventCount_push sel e qs q es :
  findQuest sel qs = Some q -> events q = Some es ->
  eventCount (mutateFirst sel (set_events (Some (es ++ [e])%list)) qs)
  = S (eventCount qs).
Proof.
  unfold findQuest, eventCount.
  induction qs as [|x qs IH]; simpl; [discriminate|].
  destruct (String.eqb (id x) sel) eqn:E; simpl.
  - intros [= ->] Hes. rewrite Hes. simpl. rewrite length_app. simpl. lia.
  - intros Hq Hes. rewrite (IH Hq Hes). lia.
Qed.

(** X15. Logging an event on the selected quest (the text not blank, that
    is not made of white space only, Unicode white space included; the
    quest holding an [events] array) adds exactly one entry to the global
    timeline, keeps the number of quests, and shows the new event first in
    the quest's own list. *)
Theorem add_event_grows_timeline (eventText eventLocation eventType newId sel
    : string) (now : Z) (st : State) (q : Quest) (es : list QuestEvent) :
  selectedQuestId st = Some sel -> sel <> "" ->
  findQuest sel (quests st) = Some q -> events q = Some es ->
  trim eventText <> "" ->
  let e := {| ev_id := newId; ts := now; type := eventType;
              text := trim eventText; location := Some eventLocation |} in
  exists st',
    eventForm_submit eventText eventLocation eventType newId now st = Ok st' /\
    List.length (quests st') = List.length (quests st) /\
    List.length (renderGlobalTimeline (quests st'))
      = S (List.length (renderGlobalTimeline (quests st))) /\
    renderQuestEvents (set_events (Some (es ++ [e])%list) q)
      = e :: renderQuestEvents q.
Proof.
  intros Hsel Hne Hq Hes Ht. cbv zeta. unfold eventForm_submit.
  rewrite Hsel, Hq, Hes. simpl.
  apply String.eqb_neq in Hne, Ht. rewrite Hne, Ht. simpl.
  eexists. split; [reflexivity|]. cbn [quests].
  split; [apply mutateFirst_length|]. split.
  - rewrite !timeline_length, mutateFirst_length.
    rewrite (eventCount_push sel _ _ q es Hq Hes). lia.
  - unfold renderQuestEvents. rewrite Hes. simpl.
    now rewrite rev_app_distr.
Qed.

Lemma add_event_grows_timeline_witness :
  List.length (renderGlobalTimeline (quests questLog)) = 4%nat /\
  exists st',
    eventForm_submit "  The vault opens " "Greywatch" "milestone" "q_e3" 300
      questLog = Ok st' /\
    List.length (renderGlobalTimeline (quests st')) = 5%nat.
Proof.
  split; [reflexivity|].
  destruct (add_event_grows_timeline "  The vault opens " "Greywatch"
              "milestone" "q_e3" "q_vault" 300 questLog vault
              [trapdoor; sealBroken])
    as (st' & E & _ & L & _); try reflexivity; try discriminate.
  exists st'. split; [exact E|]. rewrite L. reflexivity.
Defined.

(** X16. A new quest (the title not empty) is first in the list, active,
    without events, and selected; the global timeline gains its
    quest-created entry and nothing else. *)
Theorem new_quest (t : string) (d : option string) (newId : string) (now : Z)
    (st : State) :
  t <> "" ->
  exists st' q,
    btnNew_click (Some t) d newId now st = Ok st' /\
    quests st' = q :: quests st /\
    id q = newId /\ title q = t /\ status q = active /\ events q = Some [] /\
    created q = now /\
    selectedQuestId st' = Some newId /\
    List.length (renderGlobalTimeline (quests st'))
      = S (List.length (renderGlobalTimeline (quests st))).
Proof.
  intros Ht. unfold btnNew_click. simpl.
  apply String.eqb_neq in Ht. rewrite Ht. simpl.
  unfold selectQuest, findQuest. simpl. rewrite String.eqb_refl.
  eexists. eexists. split; [reflexivity|]. cbn [quests selectedQuestId].
  split; [reflexivity|]. repeat (split; [reflexivity|]).
  rewrite !timeline_length. unfold eventCount. simpl. lia.
Qed.

Lemma new_quest_witness :
  "Missing Fishermen" <> "" /\
  exists st',
    btnNew_click (Some "Missing Fishermen") None "q_fish" 400 questLog = Ok st' /\
    map title (quests st')
      = ["Missing Fishermen"; "The Whispering Vault"; "Old Lighthouse Mystery"].
Proof.
  assert (H : "Missing Fishermen" <> "") by discriminate.
  split; [exact H|].
  destruct (new_quest "Missing Fishermen" None "q_fish" 400 questLog H)
    as (st' & q & E & Q & _ & T & _).
  exists st'. split; [exact E|]. rewrite Q. simpl. now rewrite T.
Defined.

(** X17. Every quest shows under exactly one of the three status tabs:
    the tabs split the full list, each keeping the order of the list. *)
Theorem status_tabs_partition (qs : list Quest) :
  renderQuestList all qs = qs /\
  Permutation qs (renderQuestList (only active) qs
                  ++ renderQuestList (only completed) qs
                  ++ renderQuestList (only failed) qs) /\
  (forall s q, In q (renderQuestList (only s) qs) <-> In q qs /\ status q = s).
Proof.
  unfold renderQuestList. split; [|split].
  - induction qs as [|q qs IH]; simpl; [reflexivity|]. now rewrite IH.
  - induction qs as [|q qs IH]; simpl; [constructor|].
    destruct (statusIs active q) eqn:A, (statusIs completed q) eqn:B,
             (statusIs failed q) eqn:C;
      unfold statusIs in A, B, C; destruct (status q); try discriminate; simpl.
    + now constructor.
    + rewrite IH at 1. apply Permutation_middle.
    + rewrite IH at 1. rewrite !app_assoc. apply Permutation_middle.
  - intros s q. rewrite filter_In. unfold statusIs.
    split; intros (H1 & H2); split; try assumption;
      destruct s, (status q); try reflexivity; try discriminate.
Qed.

End QuestPageFacts.

Section QuestSelectionFacts.
Import Quests QuestPage Samples.

(** X18. A quest stored without an [events] array is drawn as a quest
    without events by the global timeline ([q.events || []]) and by the
    quest's own event list ([!q.events]), but the event form does not look:
    for a text that is not blank, [q.events.push] throws a TypeError before
    anything is written.  On a quest that has the array the form returns. *)
Theorem event_form_needs_events_array (eventText eventLocation eventType
    newId sel : string) (now : Z) (st : State) (q : Quest) :
  selectedQuestId st = Some sel -> sel <> "" ->
  findQuest sel (quests st) = Some q ->
  trim eventText <> "" ->
  let r := eventForm_submit eventText eventLocation eventType newId now st in
  (events q = None ->
     r = Throw TypeError /\
     renderQuestEvents q = [] /\
     questEntries q = [createdEntry q] /\
     In (createdEntry q) (renderGlobalTimeline (quests st))) /\
  (forall es, events q = Some es -> exists st', r = Ok st').
Proof.
  intros Hsel Hne Hq Ht. cbv zeta. unfold eventForm_submit.
  rewrite Hsel, Hq. simpl.
  apply String.eqb_neq in Hne, Ht. rewrite Hne, Ht. simpl.
  split.
  - intros He. rewrite He. split; [reflexivity|].
    unfold renderQuestEvents, questEntries. rewrite He.
    split; [reflexivity|]. split; [reflexivity|].
    unfold renderGlobalTimeline.
    eapply Permutation_in; [symmetry; apply sortBy_perm|].
    unfold allEvents. apply in_flat_map. exists q. split.
    + unfold findQuest in Hq. apply find_some in Hq. tauto.
    + unfold questEntries. rewrite He. now left.
  - intros es He. rewrite He. eexists. reflexivity.
Qed.

Lemma event_form_witness :
  selectedQuestId (run [SelectCard "q_light"] questLog) = Some "q_light" /\
  events lighthouse = None /\
  step (AddEvent "Lights again" "" "dialogue" "q_e9" 500)
       (run [SelectCard "q_light"] questLog) = Throw TypeError.
Proof.
  split; [reflexivity|]. split; [reflexivity|].
  assert (Hne : "q_light" <> "") by discriminate.
  assert (Ht : trim "Lights again" <> "") by (vm_compute; discriminate).
  destruct (event_form_needs_events_array "Lights again" "" "dialogue" "q_e9"
              "q_light" 500 (run [SelectCard "q_light"] questLog) lighthouse
              eq_refl Hne eq_refl Ht) as (A & _).
  exact (proj1 (A eq_refl)).
Defined.

End QuestSelectionFacts.

(** ** The transcription controls across clicks *)

Section ControlFacts.
Import Dashboard LogTools Samples.

(** X19. A click on a control adds one entry to the log exactly when it
    changes the transcription state, and none otherwise.  Whatever the state
    was, Start ends in recording and Stop in idle; Pause / Resume neither
    leaves idle nor enters it. *)
Theorem log_counts_state_changes (s : Script) (now : string) (a : Control)
    (pg : Page) :
  let pg' := transition s now a pg in
  List.length (log pg')
    = (List.length (log pg)
       + (if TxState_eqb (txState pg') (txState pg) then 0 else 1))%nat /\
  txState (transition s now start pg) = recording /\
  txState (transition s now stop pg) = idle /\
  TxState_eqb (txState (transition s now pauseResume pg)) idle
    = TxState_eqb (txState pg) idle.
Proof.
  cbv zeta. split; [|split; [|split]].
  - destruct a; simpl; unfold btnStart_click, btnPause_click, btnStop_click;
      destruct (txState pg) eqn:E; rewrite ?E; simpl; try lia;
      try destruct s as [|[|]]; simpl; rewrite ?length_app; simpl; lia.
  - simpl. unfold btnStart_click.
    destruct (txState pg) eqn:E; try destruct s as [|[|]]; simpl;
      rewrite ?E; auto.
  - simpl. unfold btnStop_click.
    destruct (txState pg) eqn:E; simpl; rewrite ?E; auto.
  - simpl. unfold btnPause_click.
    destruct (txState pg) eqn:E; simpl; rewrite ?E; auto.
Qed.

End ControlFacts.

(** ** The message router: the other branches *)

Section RouterBranches.
Import Dashboard LogTools Samples.



(** X21. Whatever the message, a router that returns has left the
    transcription state and the toasts alone and has added at most one entry
    to the log; it writes the quest list only on a quest update and the
    timeline only on a quest update or a world state update. *)
Theorem router_frame (v : Variant) (now : string) (data : Payload)
    (pg pg' : Page) :
  ws_onmessage v now data pg = Ok pg' ->
  txState pg' = txState pg /\ toastRoot pg' = toastRoot pg /\
  (log pg' = log pg \/ exists e, logged e (log pg) (log pg')) /\
  (forall m, data = JsonText m -> ~ isQuestUpdate m ->
             questList pg' = questList pg) /\
  (forall m, data = JsonText m -> ~ isQuestUpdate m -> ~ isWorldUpdate m ->
             timelineRail pg' = timelineRail pg).
Proof.
  unfold ws_onmessage, isQuestUpdate, isWorldUpdate.
  destruct data as [d|m]; simpl; [discriminate|].
  destruct m as [|b|n|s|items|fields]; simpl; try discriminate.
  destruct (strictEq (assoc "heading" fields) "Quest Update") eqn:Q.
  { intros [= <-].
    assert (E : assoc "heading" fields = Some (JStr "Quest Update")).
    { unfold strictEq in Q.
      destruct (assoc "heading" fields) as [[| | |h| |]|]; try discriminate.
      apply String.eqb_eq in Q. now subst. }
    split; [destruct v; unfold addTimelineEvent; simpl;
            destruct (timelineRail pg); reflexivity|].
    split; [destruct v; unfold addTimelineEvent; simpl;
            destruct (timelineRail pg); reflexivity|].
    split.
    - right. eexists.
      destruct v; unfold addTimelineEvent; simpl; destruct (timelineRail pg);
        simpl; first [apply logged_last; reflexivity
                     |apply logged_first; reflexivity].
    - split; intros m [= <-] Hn; exfalso; apply Hn; simpl; now rewrite E. }
  destruct (strictEq (assoc "heading" fields) "World State Update") eqn:W.
  { intros [= <-].
    assert (E : assoc "heading" fields = Some (JStr "World State Update")).
    { unfold strictEq in W.
      destruct (assoc "heading" fields) as [[| | |h| |]|]; try discriminate.
      apply String.eqb_eq in W. now subst. }
    split; [destruct v; unfold addTimelineEvent; simpl;
            destruct (timelineRail pg); reflexivity|].
    split; [destruct v; unfold addTimelineEvent; simpl;
            destruct (timelineRail pg); reflexivity|].
    split.
    - right. eexists.
      destruct v; unfold addTimelineEvent; simpl; destruct (timelineRail pg);
        simpl; first [apply logged_last; reflexivity
                     |apply logged_first; reflexivity].
    - split.
      + intros m _ _. destruct v; unfold addTimelineEvent; simpl;
          destruct (timelineRail pg); reflexivity.
      + intros m [= <-] _ Hn. exfalso. apply Hn. simpl. now rewrite E. }
  destruct (assoc "heading" fields) as [[| | |h| |]|]; try discriminate.
  destruct (prefix "Character Action" h || prefix "Character Outcome" h).
  - destruct (split ":" h) as [|p0 [|part rest]]; try discriminate.
    destruct (String.eqb (toLowerCase (trim part)) "narrator").
    + intros [= <-]. repeat split; try (destruct v; reflexivity).
      right. eexists. destruct v; [apply logged_last|apply logged_first];
        reflexivity.
    + destruct (assoc "content" fields) as [[| | |c| |]|]; try discriminate.
      intros [= <-]. repeat split; try (destruct v; reflexivity).
      right. eexists. destruct v; [apply logged_last|apply logged_first];
        reflexivity.
  - intros [= <-]. repeat split. now left.
Qed.

Lemma router_frame_witness :
  ws_onmessage PrependingLog "19:10" (JsonText kyraActs) freshPage
    = Ok (addLogMessage PrependingLog
            (playerEntry "19:10" "Action" "kyra"
               "Searches the crates.<br>Finds a key.") freshPage) /\
  questList (addLogMessage PrependingLog
               (playerEntry "19:10" "Action" "kyra"
                  "Searches the crates.<br>Finds a key.") freshPage) = [].
Proof.
  assert (H : ws_onmessage PrependingLog "19:10" (JsonText kyraActs) freshPage
              = Ok (addLogMessage PrependingLog
                      (playerEntry "19:10" "Action" "kyra"
                         "Searches the crates.<br>Finds a key.") freshPage))
    by reflexivity.
  split; [exact H|].
  destruct (router_frame _ _ _ _ _ H) as (_ & _ & _ & Q & _).
  apply (Q kyraActs eq_refl). intros C. discriminate C.
Defined.

End RouterBranches.

Section RouterShape.
Import Dashboard LogTools Samples.

Lemma strictEq_true v s : strictEq v s = true -> v = Some (JStr s).
Proof.
  unfold strictEq. destruct v as [[| | |h| |]|]; try discriminate.
  intros H. apply String.eqb_eq in H. now subst.
Qed.

(** The four ways the router returns. *)
Lemma ws_onmessage_cases v now data pg pg' :
  ws_onmessage v now data pg = Ok pg' ->
  (exists qn c e,
      pg' = addQuest qn c
              (addTimelineEvent now "Quest" qn "📜 Quest Updated" ""
                 (addLogMessage v e pg))) \/
  (exists loc e,
      pg' = addLogMessage v e
              (addTimelineEvent now "Event" loc "📍Location Changed" "" pg)) \/
  (exists e, pg' = addLogMessage v e pg) \/
  pg' = pg.
Proof.
  unfold ws_onmessage.
  destruct data as [d|m]; simpl; [discriminate|].
  destruct m as [|b|n|s|items|fields]; simpl; try discriminate.
  destruct (strictEq (assoc "heading" fields) "Quest Update").
  { intros [= <-]. left. eauto. }
  destruct (strictEq (assoc "heading" fields) "World State Update").
  { intros [= <-]. right; left. eauto. }
  destruct (assoc "heading" fields) as [[| | |h| |]|]; try discriminate.
  destruct (prefix "Character Action" h || prefix "Character Outcome" h).
  - destruct (split ":" h) as [|p0 [|part rest]]; try discriminate.
    destruct (String.eqb (toLowerCase (trim part)) "narrator").
    + intros [= <-]. right; right; left. eauto.
    + destruct (assoc "content" fields) as [[| | |c| |]|]; try discriminate.
      intros [= <-]. right; right; left. eauto.
  - intros [= <-]. now right; right; right.
Qed.

Lemma addTimelineEvent_numbered now ty title meta ic pg items :
  timelineRail pg = Some items -> numbered items ->
  exists t, timelineRail (addTimelineEvent now ty title meta ic pg)
            = Some (t :: items) /\ numbered (t :: items).
Proof.
  intros H Hn. unfold addTimelineEvent. rewrite H. simpl.
  eexists. split; [reflexivity|]. simpl. auto.
Qed.

Lemma deliver_numbered v pg m items :
  timelineRail pg = Some items -> numbered items ->
  exists new, timelineRail (deliver v pg m) = Some (new ++ items)%list /\
              numbered (new ++ items)%list /\ (List.length new <= 1)%nat.
Proof.
  intros H Hn. unfold deliver.
  destruct (ws_onmessage v (fst m) (JsonText (snd m)) pg) as [pg'|e] eqn:E.
  - destruct (ws_onmessage_cases _ _ _ _ _ E)
      as [(qn & c & e & ->)|[(loc & e & ->)|[(e & ->)| ->]]].
    + destruct (addTimelineEvent_numbered (fst m) "Quest" qn "📜 Quest Updated"
                  "" (addLogMessage v e pg) items) as (t & R & N);
        [destruct v; exact H|exact Hn|].
      exists [t]. simpl. unfold addQuest. simpl. rewrite R. auto.
    + destruct (addTimelineEvent_numbered (fst m) "Event" loc
                  "📍Location Changed" "" pg items H Hn) as (t & R & N).
      exists [t]. simpl. split; [|auto].
      destruct v; simpl; exact R.
    + exists []. simpl. split; [destruct v; exact H|auto].
    + exists []. simpl. auto.
  - exists []. simpl. auto.
Qed.



End RouterShape.

Section CharacterBranch.
Import Dashboard LogTools Samples.

Lemma prefix_not_equal p h s :
  prefix p h = true -> prefix p s = false -> h <> s.
Proof. intros H1 H2 ->. congruence. Qed.



End CharacterBranch.

(** ** main_live.js and the search box *)

Section LiveClientFacts.
Import Dashboard LogTools Samples.

Lemma list_ascii_app x y :
  list_ascii_of_string (x ++ y)
  = (list_ascii_of_string x ++ list_ascii_of_string y)%list.
Proof. induction x as [|c x IH]; simpl; [reflexivity|now rewrite IH]. Qed.

(** X24. What [escapeHtml] returns holds no [<], [>], double quote or
    single quote, so it can stand in markup and in attribute values; a text
    without these and without [&] comes back unchanged. *)
Theorem escapeHtml_is_safe (s : string) :
  existsb unsafeChar (list_ascii_of_string (escapeHtml s)) = false /\
  (existsb (fun c => unsafeChar c || Ascii.eqb c "&") (list_ascii_of_string s)
     = false -> escapeHtml s = s).
Proof.
  induction s as [|c s [IH1 IH2]]; simpl; [split; reflexivity|].
  unfold unsafeChar at 2.
  destruct (Ascii.eqb c "&") eqn:A; [split; [simpl; exact IH1|]|].
  { rewrite Bool.orb_true_r. discriminate. }
  destruct (Ascii.eqb c "<") eqn:B; [split; [simpl; exact IH1|discriminate]|].
  destruct (Ascii.eqb c ">") eqn:C; [split; [simpl; exact IH1|discriminate]|].
  destruct (Ascii.eqb c doubleQuote) eqn:D;
    [split; [simpl; exact IH1|discriminate]|].
  destruct (Ascii.eqb c "'") eqn:E; [split; [simpl; exact IH1|discriminate]|].
  simpl. split.
  - unfold unsafeChar at 1. now rewrite B, C, D, E.
  - intros H. now rewrite IH2.
Qed.

Lemma uiWs_quest_update s now qn ct pg :
  questList (uiWs_onmessage s now (JsonText (questUpdate qn ct)) pg)
  = liveQuestItem qn ct :: questList pg.
Proof.
  unfold uiWs_onmessage, questUpdate, showToast, liveQuestItem. simpl.
  destruct (String.eqb_spec ct "") as [->|Hc];
    destruct (String.eqb_spec qn "") as [->|Hq]; simpl;
    rewrite ?(proj2 (String.eqb_neq _ _) Hc);
    destruct (toastRoot pg); reflexivity.
Qed.

(** X25. The live client prepends every quest update to the quest list
    and trims nothing: the cap of two is kept by the router alone.  When
    both handlers receive the same update, the list ends with two entries
    if the router runs last and with up to three if the live client does.
    The live client never writes the log, the timeline or the
    transcription state for such a message. *)
Theorem live_client_has_no_cap (s : Script) (v : Variant) (now qn ct : string)
    (pg : Page) :
  let m := questUpdate qn ct in
  let pg1 := uiWs_onmessage s now (JsonText m) pg in
  questList pg1 = liveQuestItem qn ct :: questList pg /\
  log pg1 = log pg /\ timelineRail pg1 = timelineRail pg /\
  txState pg1 = txState pg /\
  List.length (questList (deliver v pg1 (now, m))) = 2%nat /\
  List.length (questList (uiWs_onmessage s now (JsonText m)
                            (deliver v pg (now, m))))
    = S (Nat.min 2 (S (List.length (questList pg)))).
Proof.
  cbv zeta. split; [apply uiWs_quest_update|].
  split; [|split; [|split; [|split]]].
  - unfold uiWs_onmessage, questUpdate, showToast. simpl.
    destruct (String.eqb_spec ct "") as [->|Hc];
      destruct (String.eqb_spec qn "") as [->|Hq]; simpl;
      rewrite ?(proj2 (String.eqb_neq _ _) Hc);
      destruct (toastRoot pg); reflexivity.
  - unfold uiWs_onmessage, questUpdate, showToast. simpl.
    destruct (String.eqb_spec ct "") as [->|Hc];
      destruct (String.eqb_spec qn "") as [->|Hq]; simpl;
      rewrite ?(proj2 (String.eqb_neq _ _) Hc);
      destruct (toastRoot pg); reflexivity.
  - unfold uiWs_onmessage, questUpdate, showToast. simpl.
    destruct (String.eqb_spec ct "") as [->|Hc];
      destruct (String.eqb_spec qn "") as [->|Hq]; simpl;
      rewrite ?(proj2 (String.eqb_neq _ _) Hc);
      destruct (toastRoot pg); reflexivity.
  - rewrite deliver_questList by reflexivity.
    rewrite uiWs_quest_update. reflexivity.
  - rewrite uiWs_quest_update.
    rewrite deliver_questList by reflexivity.
    destruct (questList pg) as [|a [|b l]]; reflexivity.
Qed.

(** X26. The search box: an empty query or a failed request leaves the
    log as it is; an answered search throws the whole log away and shows one
    entry for each document found, collection after collection, possibly
    none.  Emptying the query afterwards does not bring the log back. *)
Theorem search_replaces_log (query : string)
    (data : list (string * list string)) (pg : Page) :
  query <> "" ->
  let pg' := filterLogs query (Some data) pg in
  List.length (log pg') = list_sum (map (fun cd => List.length (snd cd)) data) /\
  map html (log pg') = List.concat (map snd data) /\
  filterLogs "" None pg' = pg' /\
  filterLogs query None pg = pg /\
  filterLogs "" (Some data) pg = pg /\
  questList pg' = questList pg /\ timelineRail pg' = timelineRail pg.
Proof.
  intros Hq. cbv zeta. unfold filterLogs.
  apply String.eqb_neq in Hq. rewrite Hq. simpl.
  repeat split.
  - induction data as [|[col docs] data IH]; simpl; [reflexivity|].
    now rewrite length_app, length_map, IH.
  - induction data as [|[col docs] data IH]; simpl; [reflexivity|].
    rewrite map_app, map_map, IH. simpl. now rewrite map_id.
Qed.

Lemma search_replaces_log_witness :
  "vault" <> "" /\
  map html (log (filterLogs "vault"
                   (Some [("quests", ["<b>Vault</b> found"]); ("world", [])])
                   (ws_onopen "19:00" freshPage)))
    = ["<b>Vault</b> found"].
Proof.
  assert (H : "vault" <> "") by discriminate.
  split; [exact H|].
  destruct (search_replaces_log "vault"
              [("quests", ["<b>Vault</b> found"]); ("world", [])]
              (ws_onopen "19:00" freshPage) H) as (_ & E & _).
  rewrite E. reflexivity.
Defined.

End LiveClientFacts.

(** ** inventory.js: the inventory page *)

Section InventoryFacts.
Import Inventory Samples.

Lemma no_system_cards l : existsb isSystem (map Card l) = false.
Proof. induction l; simpl; auto. Qed.

Lemma selectItem_itemsEl i st : itemsEl (selectItem i st) = itemsEl st.
Proof. unfold selectItem. now destruct (findItem i (inventory st)). Qed.

(** X28. No system message of the inventory page outlives the listener
    that wrote it: use, equip and delete call [renderList] after
    [addLogSystem], and [renderList] empties [#items] before it draws the
    cards.  So after any listener [#items] holds cards only, if it did
    before. *)
Theorem system_messages_never_stay (e : Event) (st : State) :
  existsb isSystem (itemsEl st) = false ->
  existsb isSystem (itemsEl (handle e st)) = false.
Proof.
  intros H.
  destruct e as [i| | | |c l n|c|f|v]; simpl.
  - now rewrite selectItem_itemsEl.
  - unfold btnUse_click. destruct (selectedId st) as [sel|]; [|exact H].
    destruct (String.eqb sel ""); [exact H|].
    destruct (findItem sel (inventory st)) as [it|]; [|exact H].
    destruct (0 <? qty it); [|exact H].
    rewrite selectItem_itemsEl. apply no_system_cards.
  - unfold btnToggleEquip_click. destruct (selectedId st) as [sel|]; [|exact H].
    destruct (String.eqb sel ""); [exact H|].
    destruct (findItem sel (inventory st)) as [it|]; [|exact H].
    rewrite selectItem_itemsEl. apply no_system_cards.
  - unfold btnDelete_click. destruct (selectedId st) as [sel|]; [|exact H].
    destruct (String.eqb sel ""); [exact H|]. apply no_system_cards.
  - unfold btnSeed_click. destruct (negb c); [exact H|]. apply no_system_cards.
  - unfold btnClear_click. destruct (negb c); [exact H|]. apply no_system_cards.
  - apply no_system_cards.
  - apply no_system_cards.
Qed.

Lemma system_messages_witness :
  existsb isSystem (itemsEl pack) = false /\
  itemsEl (handle Use pack) = [Card sword; Card (set_qty 0 potion)] /\
  existsb isSystem (itemsEl (handle Use pack)) = false.
Proof.
  assert (H : existsb isSystem (itemsEl pack) = false) by reflexivity.
  split; [exact H|]. split; [reflexivity|].
  exact (system_messages_never_stay Use pack H).
Defined.

End InventoryFacts.

(** ** main_live.js: samples and frames *)

Section AudioFacts.
Import Audio.

Lemma clamp_bounds x :
  (-1 <= Math_max (-1) (Math_min 1 x) <= 1)%Q.
Proof.
  unfold Math_max, Math_min.
  destruct (Qle_bool 1 x) eqn:A.
  - destruct (Qle_bool (-1) 1) eqn:B; [lra|].
    exfalso. assert (Qle_bool (-1) 1 = true) by (apply Qle_bool_iff; lra).
    congruence.
  - assert (Hx : ~ (1 <= x)%Q) by (rewrite <- Qle_bool_iff; congruence).
    destruct (Qle_bool (-1) x) eqn:B.
    + apply Qle_bool_iff in B. lra.
    + lra.
Qed.

Lemma toInt16_small z : -32768 <= z <= 32767 -> toInt16 (inject_Z z) = z.
Proof.
  intros H. unfold toInt16, truncate.
  rewrite Qfloor_Z, Qceiling_Z.
  assert (E : (if Qle_bool 0 (inject_Z z) then z else z) = z)
    by now destruct (Qle_bool 0 (inject_Z z)).
  rewrite E.
  destruct (Z.leb_spec 32768 (z mod 65536)) as [L|L];
    Z.div_mod_to_equations; lia.
Qed.

Lemma toInt16_truncate x :
  -32768 <= truncate x <= 32767 -> toInt16 x = truncate x.
Proof.
  intros H. unfold toInt16.
  destruct (Z.leb_spec 32768 (truncate x mod 65536)) as [L|L];
    Z.div_mod_to_equations; lia.
Qed.

Lemma truncate_scaled_bounds x :
  -32768 <= truncate (scaled x) <= 32767 /\
  ((0 <= x)%Q -> 0 <= truncate (scaled x)) /\
  ((x <= 0)%Q -> truncate (scaled x) <= 0).
Proof.
  unfold scaled. pose proof (clamp_bounds x) as Hc.
  set (c := Math_max (-1) (Math_min 1 x)) in *.
  assert (Hsign : ((0 <= x)%Q -> (0 <= c)%Q) /\ ((x <= 0)%Q -> (c <= 0)%Q)).
  { subst c. unfold Math_max, Math_min.
    destruct (Qle_bool 1 x) eqn:A.
    - apply Qle_bool_iff in A. simpl. split; intros; lra.
    - destruct (Qle_bool (-1) x) eqn:B.
      + split; auto.
      + assert (~ (-1 <= x)%Q) by (rewrite <- Qle_bool_iff; congruence).
        split; intros; lra. }
  destruct Hsign as (Hpos & Hneg).
  unfold truncate.
  destruct (Qle_bool 0 c) eqn:Z0.
  - apply Qle_bool_iff in Z0.
    assert (L : (0 <= c * 32767)%Q) by lra.
    assert (U : (c * 32767 <= 32767)%Q) by lra.
    apply Qle_bool_iff in L. rewrite L. apply Qle_bool_iff in L.
    pose proof (Qfloor_resp_le (inject_Z 0) _ L) as F1.
    pose proof (Qfloor_resp_le _ (inject_Z 32767) U) as F2.
    rewrite Qfloor_Z in F1, F2.
    split; [lia|]. split; [intros _; lia|]. intros Hx0.
    assert (Hc0 : (c <= 0)%Q) by auto.
    assert (E : (c * 32767 <= 0)%Q) by lra.
    pose proof (Qfloor_resp_le _ (inject_Z 0) E) as F3.
    rewrite Qfloor_Z in F3. lia.
  - assert (N : ~ (0 <= c)%Q) by (rewrite <- Qle_bool_iff; congruence).
    assert (L : (-32768 <= c * 32768)%Q) by lra.
    assert (U : (c * 32768 <= 0)%Q) by lra.
    destruct (Qle_bool 0 (c * 32768)) eqn:Z1.
    + apply Qle_bool_iff in Z1. exfalso. lra.
    + pose proof (Qceiling_resp_le (inject_Z (-32768)) _ L) as F1.
      pose proof (Qceiling_resp_le _ (inject_Z 0) U) as F2.
      rewrite Qceiling_Z in F1, F2.
      split; [lia|]. split; [|intros _; lia].
      intros Hx0. exfalso. apply N. auto.
Qed.

(** X29. A sample always fits the 16-bit frame: the value stored is the
    scaled sample rounded toward zero, never wrapped around, and it keeps the
    sign of the sample.  Samples at or beyond the ends are clipped, to
    32767 above and to -32768 below. *)
Theorem pcm16_never_wraps (x : Q) :
  -32768 <= sampleToI16 x <= 32767 /\
  sampleToI16 x = truncate (scaled x) /\
  ((0 <= x)%Q -> 0 <= sampleToI16 x) /\
  ((x <= 0)%Q -> sampleToI16 x <= 0) /\
  ((1 <= x)%Q -> sampleToI16 x = 32767) /\
  ((x <= -1)%Q -> sampleToI16 x = -32768).
Proof.
  destruct (truncate_scaled_bounds x) as (B & P & N).
  unfold sampleToI16. rewrite (toInt16_truncate _ B).
  split; [exact B|]. split; [reflexivity|]. split; [exact P|].
  split; [exact N|]. split.
  - intros H. unfold scaled, Math_max, Math_min.
    apply Qle_bool_iff in H. rewrite H. reflexivity.
  - intros H. unfold scaled, Math_max, Math_min.
    destruct (Qle_bool 1 x) eqn:A; [apply Qle_bool_iff in A; lra|].
    destruct (Qle_bool (-1) x) eqn:C.
    + apply Qle_bool_iff in C.
      assert (E : (x == -1)%Q) by lra.
      destruct (Qle_bool 0 x) eqn:D; [apply Qle_bool_iff in D; lra|].
      unfold truncate.
      destruct (Qle_bool 0 (x * 32768)) eqn:F;
        [apply Qle_bool_iff in F; lra|].
      assert (E2 : (x * 32768 == inject_Z (-32768))%Q)
        by (rewrite E; reflexivity).
      rewrite E2. apply Qceiling_Z.
    + reflexivity.
Qed.

Lemma framesFrom_concat fuel : forall i l,
  (i <= List.length l)%nat -> (List.length l - i <= fuel)%nat ->
  List.concat (framesFrom fuel i l) = skipn i l /\
  Forall (fun f => (1 <= List.length f <= CHUNK)%nat) (framesFrom fuel i l) /\
  (List.length (framesFrom fuel i l) * CHUNK
   < List.length l - i + CHUNK)%nat /\
  (List.length l - i <= List.length (framesFrom fuel i l) * CHUNK)%nat.
Proof.
  assert (HC : CHUNK = 1600%nat) by reflexivity.
  induction fuel as [|fuel IH]; intros i l Hi Hf; cbn [framesFrom].
  - assert (i = List.length l) by lia. subst.
    rewrite skipn_all. cbn [List.concat List.length].
    split; [reflexivity|]. split; [constructor|]. lia.
  - destruct (Nat.ltb_spec i (List.length l)) as [Hlt|Hge].
    + destruct (Nat.le_gt_cases (i + CHUNK) (List.length l)) as [Hfull|Hshort].
      * destruct (IH (i + CHUNK)%nat l) as (C & F & U & L); [lia|lia|].
        rewrite Nat.min_l by lia.
        replace (i + CHUNK - i)%nat with CHUNK by lia.
        cbn [List.concat List.length]. rewrite C.
        split; [|split; [|split]].
        -- rewrite Nat.add_comm, <- skipn_skipn. apply firstn_skipn.
        -- constructor; [|exact F].
           rewrite length_firstn, length_skipn. lia.
        -- lia.
        -- lia.
      * rewrite Nat.min_r by lia.
        assert (E : framesFrom fuel (i + CHUNK) l = []).
        { destruct fuel; cbn [framesFrom]; [reflexivity|].
          destruct (Nat.ltb_spec (i + CHUNK) (List.length l)); [lia|reflexivity]. }
        rewrite E. cbn [List.concat List.length]. rewrite app_nil_r.
        split; [|split; [|split]].
        -- apply firstn_all2. rewrite length_skipn. lia.
        -- constructor; [|constructor].
           rewrite length_firstn, length_skipn. lia.
        -- lia.
        -- lia.
    + assert (i = List.length l) by lia. subst.
      rewrite skipn_all. cbn [List.concat List.length].
      split; [reflexivity|]. split; [constructor|]. lia.
Qed.

(** X30. The frames cut from a buffer are the buffer: put end to end
    they give back every sample in order; each frame holds between 1 and
    1600 samples, there are [ceil(n / 1600)] of them for [n] samples (none
    for an empty buffer), and with the socket closed nothing is sent. *)
Theorem frames_cover_the_buffer (i16 : list Z) :
  List.concat (frames i16) = i16 /\
  Forall (fun f => (1 <= List.length f <= CHUNK)%nat) (frames i16) /\
  (List.length i16 <= List.length (frames i16) * CHUNK
   < List.length i16 + CHUNK)%nat /\
  sent true i16 = frames i16 /\ sent false i16 = [].
Proof.
  unfold frames.
  destruct (framesFrom_concat (List.length i16) 0 i16) as (C & F & U & L);
    [lia|lia|].
  rewrite Nat.sub_0_r in U, L. simpl in C.
  repeat split; assumption.
Qed.

(** A buffer of 4096 samples at 48 kHz comes down to 1365 samples, which
    go out as one short frame; 3300 samples would make frames of 1600, 1600
    and 100. *)
Example frame_sizes :
  map (@List.length Z) (frames (repeat 0 1365)) = [1365%nat] /\
  map (@List.length Z) (frames (repeat 0 3300)) = [1600; 1600; 100]%nat.
Proof. split; vm_compute; reflexivity. Qed.

End AudioFacts.
